(** * The credential-request client (src/client.py), embedded in Rocq

    The client of a Pointcheval-Sanders blind issuance: it commits to its
    hidden attributes, proves knowledge of them (Schnorr, Fiat-Shamir),
    removes the blinding of the signature it gets back and verifies the
    result with a pairing equation.

    The Python class keeps one mutable field ([self.__t]), draws random
    scalars from the group order, indexes lists (raising [IndexError] out of
    range) and calls into a pairing backend.  The embedding keeps all of
    that: a state-and-exception monad over the client's store, an entropy
    tape for [o.random()], list indexing that raises, and the backend as a
    type class. *)

From Stdlib.Strings Require Import String Byte.
From Stdlib Require Import ZArith List Bool Lia Eqdep_dec.
Import ListNotations.
Local Open Scope Z_scope.

Set Implicit Arguments.

(* ================================================================== *)
(** ** Byte strings and big numbers *)

Definition bytes := list byte.

Definition byte_to_Z (b : byte) : Z := Z.of_N (Byte.to_N b).

Definition byte_of_Z (z : Z) : byte :=
  match Byte.of_N (Z.to_N (z mod 256)) with
  | Some b => b
  | None => x00
  end.

(** A Python bytes literal. *)
Definition b_ (s : string) : bytes := list_byte_of_string s.
Arguments b_ s%_string.

(** [Bn.from_binary]: the big-endian integer a byte string spells.  Only
    non-negative numbers come out of it. *)
Definition from_binary (bs : bytes) : Z :=
  fold_left (fun acc b => acc * 256 + byte_to_Z b) bs 0.

(* ================================================================== *)
(** ** hashlib.sha256

    FIPS 180-4 on 32-bit words, each word a [Z] kept below [2^32]. *)

Module SHA256.

Definition mask32 : Z := 0xFFFFFFFF.
Definition w32 (x : Z) : Z := Z.land x mask32.
Definition add32 (x y : Z) : Z := w32 (x + y).
Definition rotr (n x : Z) : Z :=
  Z.lor (Z.shiftr x n) (w32 (Z.shiftl x (32 - n))).
Definition shr (n x : Z) : Z := Z.shiftr x n.
Definition not32 (x : Z) : Z := Z.lxor x mask32.

Definition Ch (x y z : Z) : Z := Z.lxor (Z.land x y) (Z.land (not32 x) z).
Definition Maj (x y z : Z) : Z :=
  Z.lxor (Z.lxor (Z.land x y) (Z.land x z)) (Z.land y z).
Definition Sigma0 (x : Z) : Z := Z.lxor (Z.lxor (rotr 2 x) (rotr 13 x)) (rotr 22 x).
Definition Sigma1 (x : Z) : Z := Z.lxor (Z.lxor (rotr 6 x) (rotr 11 x)) (rotr 25 x).
Definition sigma0 (x : Z) : Z := Z.lxor (Z.lxor (rotr 7 x) (rotr 18 x)) (shr 3 x).
Definition sigma1 (x : Z) : Z := Z.lxor (Z.lxor (rotr 17 x) (rotr 19 x)) (shr 10 x).

Definition K : list Z :=
  [ 1116352408; 1899447441; 3049323471; 3921009573; 961987163; 1508970993;
    2453635748; 2870763221; 3624381080; 310598401; 607225278; 1426881987;
    1925078388; 2162078206; 2614888103; 3248222580; 3835390401; 4022224774;
    264347078; 604807628; 770255983; 1249150122; 1555081692; 1996064986;
    2554220882; 2821834349; 2952996808; 3210313671; 3336571891; 3584528711;
    113926993; 338241895; 666307205; 773529912; 1294757372; 1396182291;
    1695183700; 1986661051; 2177026350; 2456956037; 2730485921; 2820302411;
    3259730800; 3345764771; 3516065817; 3600352804; 4094571909; 275423344;
    430227734; 506948616; 659060556; 883997877; 958139571; 1322822218;
    1537002063; 1747873779; 1955562222; 2024104815; 2227730452; 2361852424;
    2428436474; 2756734187; 3204031479; 3329325298 ].

(** The eight working variables, also the chaining value. *)
Record regs : Type := Regs {
  ra : Z; rb : Z; rc : Z; rd : Z; re : Z; rf : Z; rg : Z; rh : Z }.

Definition H0 : regs :=
  Regs 1779033703 3144134277 1013904242 2773480762
       1359893119 2600822924 528734635 1541459225.

(** Padding: the byte 0x80, zeros up to 56 mod 64, the bit length on 8
    bytes. *)
Definition be_bytes (width : nat) (x : Z) : bytes :=
  map (fun k => byte_of_Z (Z.shiftr x (8 * Z.of_nat k))) (rev (seq 0 width)).

Definition pad (msg : bytes) : bytes :=
  let len := Z.of_nat (length msg) in
  let zeros := Z.to_nat ((55 - len) mod 64) in
  msg ++ x80 :: repeat x00 zeros ++ be_bytes 8 (8 * len).

(** Four bytes to a word, and a padded message to its 64-byte blocks of
    sixteen words. *)
Fixpoint words (bs : bytes) : list Z :=
  match bs with
  | b3 :: b2 :: b1 :: b0 :: rest => from_binary [b3; b2; b1; b0] :: words rest
  | _ => []
  end.

Fixpoint blocks (fuel : nat) (ws : list Z) : list (list Z) :=
  match fuel, ws with
  | S fuel', _ :: _ => firstn 16 ws :: blocks fuel' (skipn 16 ws)
  | _, _ => []
  end.

(** The message schedule, newest word first: [W t] from the sixteen before
    it. *)
Definition next_w (recent : list Z) : Z :=
  add32 (add32 (sigma1 (nth 1 recent 0)) (nth 6 recent 0))
        (add32 (sigma0 (nth 14 recent 0)) (nth 15 recent 0)).

Fixpoint extend (n : nat) (recent : list Z) : list Z :=
  match n with
  | O => recent
  | S n' => extend n' (next_w recent :: recent)
  end.

Definition schedule (block : list Z) : list Z := rev (extend 48 (rev block)).

Definition round (s : regs) (kw : Z * Z) : regs :=
  let t1 := add32 (add32 (add32 s.(rh) (Sigma1 s.(re)))
                         (add32 (Ch s.(re) s.(rf) s.(rg)) (fst kw))) (snd kw) in
  let t2 := add32 (Sigma0 s.(ra)) (Maj s.(ra) s.(rb) s.(rc)) in
  Regs (add32 t1 t2) s.(ra) s.(rb) s.(rc) (add32 s.(rd) t1) s.(re) s.(rf) s.(rg).

Definition compress (h : regs) (block : list Z) : regs :=
  let s := fold_left round (combine K (schedule block)) h in
  Regs (add32 h.(ra) s.(ra)) (add32 h.(rb) s.(rb)) (add32 h.(rc) s.(rc))
       (add32 h.(rd) s.(rd)) (add32 h.(re) s.(re)) (add32 h.(rf) s.(rf))
       (add32 h.(rg) s.(rg)) (add32 h.(rh) s.(rh)).

Definition regs_bytes (h : regs) : bytes :=
  be_bytes 4 h.(ra) ++ be_bytes 4 h.(rb) ++ be_bytes 4 h.(rc) ++ be_bytes 4 h.(rd)
  ++ be_bytes 4 h.(re) ++ be_bytes 4 h.(rf) ++ be_bytes 4 h.(rg) ++ be_bytes 4 h.(rh).

(** [sha256(msg).digest()] *)
Definition digest (msg : bytes) : bytes :=
  let ws := words (pad msg) in
  regs_bytes (fold_left compress (blocks (length ws) ws) H0).

End SHA256.

Definition sha256 (msg : bytes) : bytes := SHA256.digest msg.

(* ================================================================== *)
(** ** Python values that can fail: exceptions and the client's store *)

Inductive exn : Type :=
| IndexError                      (* list index out of range *)
| TypeError                       (* an operand of the wrong type, e.g. None *)
| OtherError (cls : string).      (* any other exception class, by name *)

Inductive result (A : Type) : Type :=
| Ok (a : A)
| Raise (e : exn).
Arguments Ok {A} a.
Arguments Raise {A} e.

Definition rbind {A B} (m : result A) (k : A -> result B) : result B :=
  match m with
  | Ok a => k a
  | Raise e => Raise e
  end.

Notation "x <-? m ;; k" := (rbind m (fun x => k))
  (at level 61, m at next level, right associativity).

(** [l[i]] for a non-negative index. *)
Definition index {A} (l : list A) (i : nat) : result A :=
  match nth_error l i with
  | Some x => Ok x
  | None => Raise IndexError
  end.

(** The mutable part of a [Client] object and of its surroundings:
    [self.__t] ([None] until a request is made) and how many scalars the
    random source has handed out. *)
Record store : Type := Store {
  self_t : option Z;
  drawn : nat }.

Definition M (A : Type) : Type := store -> result A * store.

Definition ret {A} (a : A) : M A := fun s => (Ok a, s).

Definition bind {A B} (m : M A) (k : A -> M B) : M B :=
  fun s => match m s with
           | (Ok a, s') => k a s'
           | (Raise e, s') => (Raise e, s')
           end.

Definition lift {A} (r : result A) : M A := fun s => (r, s).

Notation "x <- m ;; k" := (bind m (fun x => k))
  (at level 61, m at next level, right associativity).
Notation "' pat <- m ;; k" := (bind m (fun x => match x with pat => k end))
  (at level 61, pat pattern, m at next level, right associativity).

Definition get_t : M (option Z) := fun s => (Ok s.(self_t), s).
Definition set_t (t : Z) : M unit := fun s => (Ok tt, Store (Some t) s.(drawn)).

(* ================================================================== *)
(** ** The pairing backend (bplib, petlib and the helper module)

    What the client takes from its backend: two groups written additively,
    the target group, the common order [o], the pairing [e], the canonical
    export of a group-1 element and the Fiat-Shamir hash [to_challenge] of
    the helper module. *)

Class GroupEngine : Type := {
  G1 : Type;
  G2 : Type;
  GT : Type;
  o : Z;                                   (* BpGroupHelper.o *)
  g1_zero : G1;
  g1_add : G1 -> G1 -> G1;
  g1_neg : G1 -> G1;
  g1_sub : G1 -> G1 -> G1;
  g1_mul : G1 -> Z -> G1;
  g2_zero : G2;
  g2_add : G2 -> G2 -> G2;
  g2_mul : G2 -> Z -> G2;
  e : G1 -> G2 -> GT;                      (* BpGroupHelper.e *)
  gt_eqb : GT -> GT -> bool;               (* == on the target group *)
  g1_export : G1 -> bytes;                 (* .export() *)
  to_challenge : list bytes -> Z;          (* helper.to_challenge *)
  (** what [point * None] does: the operand is not a number *)
  g1_mul_none : G1 -> result G1
}.

(** The laws of a backend: both groups are modules over the integers, the
    pairing moves scalars across, and [==] decides equality. *)
Class GroupLaws (E : GroupEngine) : Prop := {
  g1_add_assoc : forall a b c : G1, g1_add a (g1_add b c) = g1_add (g1_add a b) c;
  g1_add_comm : forall a b : G1, g1_add a b = g1_add b a;
  g1_add_zero : forall a : G1, g1_add a g1_zero = a;
  g1_add_neg : forall a : G1, g1_add a (g1_neg a) = g1_zero;
  g1_sub_neg : forall a b : G1, g1_sub a b = g1_add a (g1_neg b);
  g1_mul_plus : forall (a : G1) (x y : Z),
      g1_mul a (x + y) = g1_add (g1_mul a x) (g1_mul a y);
  g1_mul_mul : forall (a : G1) (x y : Z), g1_mul (g1_mul a x) y = g1_mul a (x * y);
  g2_add_assoc : forall a b c : G2, g2_add a (g2_add b c) = g2_add (g2_add a b) c;
  g2_add_zero : forall a : G2, g2_add a g2_zero = a;
  g2_zero_add : forall a : G2, g2_add g2_zero a = a;
  g2_mul_plus : forall (a : G2) (x y : Z),
      g2_mul a (x + y) = g2_add (g2_mul a x) (g2_mul a y);
  g2_mul_mul : forall (a : G2) (x y : Z), g2_mul (g2_mul a x) y = g2_mul a (x * y);
  e_bilinear : forall (a : G1) (b : G2) (x : Z), e (g1_mul a x) b = e a (g2_mul b x);
  gt_eqb_eq : forall a b : GT, gt_eqb a b = true <-> a = b
}.

(** Two more laws of a backend, for the properties that scale a sum of
    points or use the identity of group 2. *)
Class ModuleLaws (E : GroupEngine) : Prop := {
  g1_mul_add : forall (a b : G1) (x : Z),
      g1_mul (g1_add a b) x = g1_add (g1_mul a x) (g1_mul b x);
  g2_mul_zero : forall a : G2, g2_mul a 0 = g2_zero
}.

(** [PubKey]: the IdP's public key.  [X] lives in group 2, where [verify]
    adds it to the [Yg2]. *)
Record PubKey {E : GroupEngine} : Type := {
  g1 : G1;
  g2 : G2;
  X : G2;
  Yg1 : list G1;
  Yg2 : list G2 }.
Arguments PubKey E : clear implicits.

(** An attribute: ["attribute", True if hidden]. *)
Definition Attribute : Type := (bytes * bool)%type.

(** What the request carries for an attribute: the [""] placeholder for a
    hidden one, the bytes of a plain one. *)
Inductive request_attribute : Type :=
| Placeholder
| Plain (value : bytes).

(** [Request(C, c, r, request_attributes)] *)
Record Request {E : GroupEngine} : Type := {
  req_C : G1;
  req_c : Z;
  req_r : list Z;
  req_attributes : list request_attribute }.
Arguments Request E : clear implicits.

(* ================================================================== *)
(** ** class Client *)

Section Client.

Context {E : GroupEngine}.

(** [self.__idp_pk], fixed at construction. *)
Variable idp_pk : PubKey E.

(** The scalars [o.random()] returns, in the order they are asked for. *)
Variable entropy : nat -> Z.

(** [Client(idp_pk)]: no blinding factor yet. *)
Definition init (already_drawn : nat) : store := Store None already_drawn.

(** [o.random()] *)
Definition o_random : M Z :=
  fun s => (Ok (entropy s.(drawn)), Store s.(self_t) (S s.(drawn))).

(** [Bn.from_binary(sha256(value).digest())], as both
    [__hash_hidden_attributes] and [verify] write it. *)
Definition attribute_hash (value : bytes) : Z := from_binary (sha256 value).

(** [__hash_hidden_attributes] *)
Definition hash_hidden_attributes (attributes : list Attribute) : list Z :=
  fold_left
    (fun (hashed_attributes : list Z) (attribute : Attribute) =>
       if snd attribute
       then hashed_attributes ++ [attribute_hash (fst attribute)]
       else hashed_attributes)
    attributes [].

(** The loop of [__create_commitment]: [i] runs over all attributes, [j]
    over the hashed ones. *)
Fixpoint commitment_loop (hashed_attributes : list Z) (attributes : list Attribute)
    (i j : nat) (C : G1) : result G1 :=
  match attributes with
  | [] => Ok C
  | attribute :: rest =>
      if snd attribute then
        y <-? index idp_pk.(Yg1) i ;;
        h <-? index hashed_attributes j ;;
        commitment_loop hashed_attributes rest (S i) (S j) (g1_add C (g1_mul y h))
      else commitment_loop hashed_attributes rest (S i) j C
  end.

(** [__create_commitment] *)
Definition create_commitment (hashed_attributes : list Z)
    (attributes : list Attribute) : M G1 :=
  t <- o_random ;;
  _ <- set_t t ;;
  lift (commitment_loop hashed_attributes attributes 0 0 (g1_mul idp_pk.(g1) t)).

(** The loop of [create_zkp] that builds [V]: a hidden attribute appends a
    random scalar, then reads [randomness[i + 1]] with [i] the position
    among all attributes. *)
Fixpoint zkp_V_loop (attributes : list Attribute) (i : nat)
    (randomness : list Z) (V : G1) : M (list Z * G1) :=
  match attributes with
  | [] => ret (randomness, V)
  | attribute :: rest =>
      if snd attribute then
        fresh <- o_random ;;
        let randomness := randomness ++ [fresh] in
        y <- lift (index idp_pk.(Yg1) i) ;;
        x <- lift (index randomness (i + 1)) ;;
        zkp_V_loop rest (S i) randomness (g1_add V (g1_mul y x))
      else zkp_V_loop rest (S i) randomness V
  end.

(** The loop of [create_zkp] that builds [r], over the hashed attributes. *)
Fixpoint zkp_r_loop (hashed_attributes : list Z) (i : nat)
    (randomness : list Z) (c : Z) (r : list Z) : result (list Z) :=
  match hashed_attributes with
  | [] => Ok r
  | attribute :: rest =>
      x <-? index randomness (i + 1) ;;
      zkp_r_loop rest (S i) randomness c (r ++ [x - attribute * c])
  end.

(** [self.__t * c] on big numbers: [None] is no operand. *)
Definition bn_mul_dyn (t : option Z) (c : Z) : result Z :=
  match t with
  | Some t => Ok (t * c)
  | None => Raise TypeError
  end.

(** [create_zkp] *)
Definition create_zkp (attributes : list Attribute) (hashed_attributes : list Z)
    (C : G1) (data : bytes) : M (G1 * Z * list Z) :=
  first <- o_random ;;
  let randomness := [first] in
  x0 <- lift (index randomness 0) ;;
  '(randomness, V) <- zkp_V_loop attributes 0 randomness (g1_mul idp_pk.(g1) x0) ;;
  let c := to_challenge [g1_export C; g1_export V; data] in
  x0 <- lift (index randomness 0) ;;
  t <- get_t ;;
  tc <- lift (bn_mul_dyn t c) ;;
  r <- lift (zkp_r_loop hashed_attributes 0 randomness c [x0 - tc]) ;;
  ret (V, c, r).

(** [request_id] *)
Definition request_id (attributes : list Attribute) (data : bytes) : M (Request E) :=
  let hashed_attributes := hash_hidden_attributes attributes in
  C <- create_commitment hashed_attributes attributes ;;
  '(V, c, r) <- create_zkp attributes hashed_attributes C data ;;
  let request_attributes :=
    map (fun attr : Attribute => if snd attr then Placeholder else Plain (fst attr))
        attributes in
  ret {| req_C := C; req_c := c; req_r := r; req_attributes := request_attributes |}.

(** [sig1 * self.__t] on a point: [None] is left to the backend. *)
Definition g1_mul_dyn (p : G1) (t : option Z) : result G1 :=
  match t with
  | Some t => Ok (g1_mul p t)
  | None => g1_mul_none p
  end.

(** [unbind_sig] *)
Definition unbind_sig (sig_prime : G1 * G1) : M (G1 * G1) :=
  let '(sig1, sig2) := sig_prime in
  t <- get_t ;;
  blinding <- lift (g1_mul_dyn sig1 t) ;;
  ret (sig1, g1_sub sig2 blinding).

(** The loop of [verify]. *)
Fixpoint verify_loop (attributes : list Attribute) (i : nat)
    (verification_result : G2) : result G2 :=
  match attributes with
  | [] => Ok verification_result
  | attribute :: rest =>
      let attribute_hash := attribute_hash (fst attribute) in
      y <-? index idp_pk.(Yg2) i ;;
      verify_loop rest (S i) (g2_add verification_result (g2_mul y attribute_hash))
  end.

(** [verify]: it reads the public key only, never [self.__t]. *)
Definition verify (sig : G1 * G1) (attributes : list Attribute) : result bool :=
  let '(sig1, sig2) := sig in
  verification_result <-? verify_loop attributes 0 idp_pk.(X) ;;
  Ok (gt_eqb (e sig1 verification_result) (e sig2 idp_pk.(g2))).

End Client.

Arguments init : clear implicits.

(* ================================================================== *)
(** ** A backend to run the client on

    The integers modulo the order of the BN254 groups, as the additive
    group on both sides, with multiplication as the pairing.  Elements are
    kept reduced, so that equal elements are equal terms. *)

Module Zq.

Definition q : Z :=
  16798108731015832284940804142231733909759579603404752749028378864165570215949.

Definition reduced (z : Z) : bool := (0 <=? z) && (z <? q).

Record elt : Type := Elt { val : Z; val_reduced : reduced val = true }.

Lemma q_pos : 0 < q.
Proof. reflexivity. Qed.

Lemma reduced_mod (z : Z) : reduced (z mod q) = true.
Proof.
  unfold reduced. pose proof (Z.mod_pos_bound z q q_pos) as [Hlo Hhi].
  apply andb_true_intro; split; [apply Z.leb_le | apply Z.ltb_lt]; assumption.
Qed.

Definition of_Z (z : Z) : elt := Elt (z mod q) (reduced_mod z).

Definition zero : elt := of_Z 0.
Definition add (a b : elt) : elt := of_Z (val a + val b).
Definition neg (a : elt) : elt := of_Z (- val a).
Definition sub (a b : elt) : elt := of_Z (val a - val b).
Definition mul (a : elt) (x : Z) : elt := of_Z (val a * x).
Definition pair (a b : elt) : elt := of_Z (val a * val b).
Definition eqb (a b : elt) : bool := val a =? val b.

(** The canonical export: 32 bytes, big-endian. *)
Definition export (a : elt) : bytes := SHA256.be_bytes 32 (val a).

(** Modelled from the spec: [helper.to_challenge] is not in the sources.
    It hashes the parts, concatenated in the order given, and reduces the
    digest to a scalar of the field. *)
Definition hash_to_challenge (parts : list bytes) : Z :=
  from_binary (sha256 (concat parts)) mod q.

(** The backend.  A point times [None] is rejected, as the library rejects
    an operand that is not a number. *)
#[export] Instance engine : GroupEngine := {|
  G1 := elt; G2 := elt; GT := elt;
  o := q;
  g1_zero := zero; g1_add := add; g1_neg := neg; g1_sub := sub; g1_mul := mul;
  g2_zero := zero; g2_add := add; g2_mul := mul;
  e := pair;
  gt_eqb := eqb;
  g1_export := export;
  to_challenge := hash_to_challenge;
  g1_mul_none := fun _ => Raise TypeError
|}.

End Zq.

(* ================================================================== *)
(** ** The issuer's side, for the round trip *)

Section Issuer.

Context {E : GroupEngine}.

(** Modelled from the spec: key generation belongs to the issuer and is not
    in the sources.  The public key of the scheme the client's docstring
    cites: [X] and the [Y] are the generators scaled by the secret key,
    one [y] per attribute slot. *)
Definition keygen (gen1 : G1) (gen2 : G2) (x : Z) (ys : list Z) : PubKey E :=
  {| g1 := gen1; g2 := gen2;
     X := g2_mul gen2 x;
     Yg1 := map (g1_mul gen1) ys;
     Yg2 := map (g2_mul gen2) ys |}.

(** Modelled from the spec: the issuer's signing is not in the sources.
    A faithful issuer scales, by a scalar [u] of its own, the sum of its
    secret generator, the commitment (blinding term included) and its own
    terms for the attributes sent in the clear:
    [(g1 * u, (g1 * x + C + sum of Yg1[i] * hash(plain_i)) * u)]. *)
Fixpoint issuer_plain_terms (pk : PubKey E) (attributes : list request_attribute)
    (i : nat) (acc : G1) : result G1 :=
  match attributes with
  | [] => Ok acc
  | Placeholder :: rest => issuer_plain_terms pk rest (S i) acc
  | Plain value :: rest =>
      y <-? index pk.(Yg1) i ;;
      issuer_plain_terms pk rest (S i)
        (g1_add acc (g1_mul y (from_binary (sha256 value))))
  end.

Definition issuer_sign (pk : PubKey E) (x u : Z) (request : Request E)
    : result (G1 * G1) :=
  base <-? issuer_plain_terms pk request.(req_attributes) 0
             (g1_add (g1_mul pk.(g1) x) request.(req_C)) ;;
  Ok (g1_mul pk.(g1) u, g1_mul base u).

(** One whole session: request, signature, unblinding, verification. *)
Definition round_trip (pk : PubKey E) (entropy : nat -> Z) (x u : Z)
    (attributes : list Attribute) (data : bytes) : M bool :=
  request <- request_id pk entropy attributes data ;;
  sig_prime <- lift (issuer_sign pk x u request) ;;
  sig <- unbind_sig sig_prime ;;
  lift (verify pk sig attributes).

End Issuer.

(* ================================================================== *)
(** ** A session to run *)

Module Session.

Import Zq.

Definition pk : PubKey engine := keygen (of_Z 5) (of_Z 7) 1234567 [11; 13; 17].

Definition entropy (n : nat) : Z := (1000003 * (Z.of_nat n + 1)) mod q.

Definition alice_hidden : list Attribute := [(b_ "alice", true); (b_ "2024", false)].
Definition alice_late : list Attribute := [(b_ "2024", false); (b_ "alice", true)].

End Session.

(* ================================================================== *)
(** ** The words of the specification

    Sums over attribute positions, written once and for all, to compare
    what the loops compute with. *)

Section Vocabulary.

Context {E : GroupEngine}.
Variable idp_pk : PubKey E.

(** [enumerate(l, start)] *)
Definition enumerate {A} (start : nat) (l : list A) : list (nat * A) :=
  combine (seq start (length l)) l.

(** The hidden attributes with their positions, in order. *)
Definition hidden_slots (start : nat) (attributes : list Attribute)
    : list (nat * Attribute) :=
  filter (fun slot => snd (snd slot)) (enumerate start attributes).

Definition count_hidden (attributes : list Attribute) : nat :=
  length (filter (fun a : Attribute => snd a) attributes).

Definition g1_sum (terms : list G1) : G1 := fold_right g1_add g1_zero terms.
Definition g2_sum (terms : list G2) : G2 := fold_right g2_add g2_zero terms.

(** [Yg1[i] * hash(attr_i)] for the attribute in a slot. *)
Definition g1_hash_term (slot : nat * Attribute) : G1 :=
  g1_mul (nth (fst slot) idp_pk.(Yg1) g1_zero) (attribute_hash (fst (snd slot))).

Definition g2_hash_term (slot : nat * Attribute) : G2 :=
  g2_mul (nth (fst slot) idp_pk.(Yg2) g2_zero) (attribute_hash (fst (snd slot))).

(** [C = g1 * t + sum over the hidden positions i of Yg1[i] * hash(attr_i)] *)
Definition commitment_of (t : Z) (attributes : list Attribute) : G1 :=
  g1_add (g1_mul idp_pk.(g1) t) (g1_sum (map g1_hash_term (hidden_slots 0 attributes))).

(** [Z = X + sum over all positions i of Yg2[i] * hash(attr_i)] *)
Definition aggregated_key (attributes : list Attribute) : G2 :=
  g2_add idp_pk.(X) (g2_sum (map g2_hash_term (enumerate 0 attributes))).

(** [V = g1 * random_0 + sum over the hidden positions of Yg1[i] * random_k],
    the k-th scalar of [randoms] going with the k-th hidden slot. *)
Definition g1_random_term (sr : (nat * Attribute) * Z) : G1 :=
  g1_mul (nth (fst (fst sr)) idp_pk.(Yg1) g1_zero) (snd sr).

Definition proof_commitment_of (random_0 : Z) (randoms : list Z)
    (attributes : list Attribute) : G1 :=
  g1_add (g1_mul idp_pk.(g1) random_0)
    (g1_sum (map g1_random_term (combine (hidden_slots 0 attributes) randoms))).

(** [r_k = random_k - secret_k * c], as integers. *)
Definition responses_of (randoms secrets : list Z) (c : Z) : list Z :=
  map (fun rs : Z * Z => fst rs - snd rs * c) (combine randoms secrets).

(** The exponent that the attributes kept by [keep] contribute under the
    secret key [ys]: the sum of [ys[i] * hash(attr_i)]. *)
Fixpoint exponent_sum (ys : list Z) (keep : Attribute -> bool) (i : nat)
    (attributes : list Attribute) : Z :=
  match attributes with
  | [] => 0
  | a :: rest =>
      (if keep a then nth i ys 0 * attribute_hash (fst a) else 0)
      + exponent_sum ys keep (S i) rest
  end.

(** All hidden attributes come before all plain ones. *)
Fixpoint hidden_prefix (attributes : list Attribute) : bool :=
  match attributes with
  | [] => true
  | a :: rest =>
      if snd a then hidden_prefix rest
      else forallb (fun a' : Attribute => negb (snd a')) rest
  end.

(** Some plain attribute precedes some hidden one. *)
Definition plain_before_hidden (attributes : list Attribute) : Prop :=
  exists (i j : nat) (v w : bytes),
    (i < j)%nat /\ nth_error attributes i = Some (v, false)
    /\ nth_error attributes j = Some (w, true).

(** Every hidden position has a generator in [Yg1]. *)
Definition hidden_covered (attributes : list Attribute) : bool :=
  forallb (fun slot : nat * Attribute => (fst slot <? length idp_pk.(Yg1))%nat)
          (hidden_slots 0 attributes).

(** What a verifier of the proof recomputes from a request:
    [g1 * r_0 + sum over the hidden positions of Yg1[i] * r_k + C * c]. *)
Definition recomputed_V (C : G1) (c : Z) (r : list Z)
    (attributes : list Attribute) : G1 :=
  g1_add (proof_commitment_of (nth 0 r 0) (tl r) attributes) (g1_mul C c).

End Vocabulary.

(* ================================================================== *)
(** * Properties *)

(** ** The backend over the integers modulo [q] obeys the laws *)

Module ZqLaws.

Import Zq.

Lemma val_inj (a b : elt) : val a = val b -> a = b.
Proof.
  destruct a as [x Hx], b as [y Hy]; simpl; intros ->.
  f_equal. apply UIP_dec. apply bool_dec.
Qed.

Lemma val_range (a : elt) : 0 <= val a < q.
Proof.
  destruct a as [x Hx]; simpl. unfold reduced in Hx.
  apply andb_prop in Hx as [Hlo Hhi].
  apply Z.leb_le in Hlo. apply Z.ltb_lt in Hhi. lia.
Qed.

Lemma val_mod (a : elt) : val a mod q = val a.
Proof. apply Z.mod_small, val_range. Qed.

Lemma add_assoc (a b c : elt) : add a (add b c) = add (add a b) c.
Proof.
  apply val_inj; simpl.
  rewrite Z.add_mod_idemp_r, Z.add_mod_idemp_l by (pose proof q_pos; lia).
  f_equal; lia.
Qed.

Lemma add_comm (a b : elt) : add a b = add b a.
Proof. apply val_inj; simpl. f_equal; lia. Qed.

Lemma add_zero (a : elt) : add a zero = a.
Proof.
  apply val_inj; simpl. rewrite Z.mod_0_l by (pose proof q_pos; lia).
  rewrite Z.add_0_r. apply val_mod.
Qed.

Lemma zero_add (a : elt) : add zero a = a.
Proof. rewrite add_comm. apply add_zero. Qed.

Lemma add_neg (a : elt) : add a (neg a) = zero.
Proof.
  apply val_inj; simpl.
  rewrite Z.add_mod_idemp_r by (pose proof q_pos; lia).
  f_equal; lia.
Qed.

Lemma sub_neg (a b : elt) : sub a b = add a (neg b).
Proof.
  apply val_inj; simpl.
  rewrite Z.add_mod_idemp_r by (pose proof q_pos; lia).
  f_equal; lia.
Qed.

Lemma mul_plus (a : elt) (x y : Z) : mul a (x + y) = add (mul a x) (mul a y).
Proof.
  apply val_inj; simpl.
  rewrite <- Z.add_mod by (pose proof q_pos; lia).
  f_equal; lia.
Qed.

Lemma mul_mul (a : elt) (x y : Z) : mul (mul a x) y = mul a (x * y).
Proof.
  apply val_inj; simpl.
  rewrite Z.mul_mod_idemp_l by (pose proof q_pos; lia).
  f_equal; lia.
Qed.

Lemma pair_bilinear (a b : elt) (x : Z) : pair (mul a x) b = pair a (mul b x).
Proof.
  apply val_inj; simpl.
  rewrite Z.mul_mod_idemp_l, Z.mul_mod_idemp_r by (pose proof q_pos; lia).
  f_equal; lia.
Qed.

Lemma eqb_eq (a b : elt) : eqb a b = true <-> a = b.
Proof.
  unfold eqb. rewrite Z.eqb_eq. split; [apply val_inj | now intros ->].
Qed.

#[export] Instance laws : GroupLaws Zq.engine.
Proof.
  constructor; simpl.
  - exact add_assoc.
  - exact add_comm.
  - exact add_zero.
  - exact add_neg.
  - exact sub_neg.
  - exact mul_plus.
  - exact mul_mul.
  - exact add_assoc.
  - exact add_zero.
  - exact zero_add.
  - exact mul_plus.
  - exact mul_mul.
  - exact pair_bilinear.
  - exact eqb_eq.
Qed.

End ZqLaws.

(* ================================================================== *)
(** ** Lists, indices and big numbers *)

Lemma index_nth {A} (l : list A) (i : nat) (d : A) :
  (i < length l)%nat -> index l i = Ok (nth i l d).
Proof.
  intros Hi. unfold index.
  destruct (nth_error l i) as [x|] eqn:Hx.
  - now rewrite (nth_error_nth _ _ d Hx).
  - apply nth_error_None in Hx. lia.
Qed.

Lemma index_out {A} (l : list A) (i : nat) :
  (length l <= i)%nat -> index l i = Raise IndexError.
Proof.
  intros Hi. unfold index.
  apply nth_error_None in Hi. now rewrite Hi.
Qed.

Lemma index_last {A} (l : list A) (x : A) : index (l ++ [x]) (length l) = Ok x.
Proof.
  unfold index. rewrite nth_error_app2 by lia.
  now rewrite Nat.sub_diag.
Qed.

Lemma index_cases {A} (l : list A) (i : nat) :
  (exists x, index l i = Ok x) \/ index l i = Raise IndexError.
Proof.
  unfold index. destruct (nth_error l i); [left; eauto | now right].
Qed.

Lemma enumerate_cons {A} (start : nat) (a : A) (l : list A) :
  enumerate start (a :: l) = (start, a) :: enumerate (S start) l.
Proof. reflexivity. Qed.

Lemma byte_to_Z_range (b : byte) : 0 <= byte_to_Z b <= 255.
Proof.
  unfold byte_to_Z. pose proof (Byte.to_N_bounded b). lia.
Qed.

Lemma from_binary_acc_range (bs : bytes) (acc : Z) :
  0 <= acc ->
  0 <= fold_left (fun a b => a * 256 + byte_to_Z b) bs acc
    < (acc + 1) * 256 ^ Z.of_nat (length bs).
Proof.
  revert acc. induction bs as [|b bs IH]; intros acc Hacc.
  - simpl. lia.
  - cbn [fold_left length]. pose proof (byte_to_Z_range b) as Hb.
    specialize (IH (acc * 256 + byte_to_Z b) ltac:(lia)).
    rewrite Nat2Z.inj_succ, Z.pow_succ_r by lia.
    assert (0 < 256 ^ Z.of_nat (length bs)) by (apply Z.pow_pos_nonneg; lia).
    split; [lia | nia].
Qed.

Lemma from_binary_range (bs : bytes) :
  0 <= from_binary bs < 256 ^ Z.of_nat (length bs).
Proof.
  pose proof (@from_binary_acc_range bs 0 ltac:(lia)) as H.
  unfold from_binary. lia.
Qed.

Lemma sha256_length (msg : bytes) : length (sha256 msg) = 32%nat.
Proof. reflexivity. Qed.

Lemma attribute_hash_range (value : bytes) : 0 <= attribute_hash value < 2 ^ 256.
Proof.
  unfold attribute_hash.
  pose proof (from_binary_range (sha256 value)) as H.
  rewrite sha256_length in H. exact H.
Qed.

(** From here on the digest is used through its length only. *)
#[global] Opaque sha256.

Lemma hash_hidden_attributes_acc (attributes : list Attribute) (acc : list Z) :
  fold_left
    (fun (hashed_attributes : list Z) (attribute : Attribute) =>
       if snd attribute
       then hashed_attributes ++ [attribute_hash (fst attribute)]
       else hashed_attributes)
    attributes acc
  = acc ++ map (fun a : Attribute => attribute_hash (fst a))
               (filter (fun a : Attribute => snd a) attributes).
Proof.
  revert acc. induction attributes as [|[v h] rest IH]; intros acc; simpl.
  - now rewrite app_nil_r.
  - destruct h; rewrite IH; simpl; [now rewrite <- app_assoc | reflexivity].
Qed.

Lemma hash_hidden_attributes_filter (attributes : list Attribute) :
  hash_hidden_attributes attributes
  = map (fun a : Attribute => attribute_hash (fst a))
        (filter (fun a : Attribute => snd a) attributes).
Proof. unfold hash_hidden_attributes. now rewrite hash_hidden_attributes_acc. Qed.

Lemma hash_hidden_attributes_length (attributes : list Attribute) :
  length (hash_hidden_attributes attributes) = count_hidden attributes.
Proof.
  rewrite hash_hidden_attributes_filter. unfold count_hidden. apply length_map.
Qed.

(* ================================================================== *)
(** ** Hashing, unblinding and verification *)

Section Verification.

Context {E : GroupEngine}.
Variable idp_pk : PubKey E.
Variable entropy : nat -> Z.

(** The loop of [verify] adds one term per attribute, whatever its flag. *)
Lemma verify_loop_sum (L : GroupLaws E) (attributes : list Attribute) :
  forall (i : nat) (acc : G2),
    (i + length attributes <= length idp_pk.(Yg2))%nat ->
    verify_loop idp_pk attributes i acc
    = Ok (g2_add acc (g2_sum (map (g2_hash_term idp_pk) (enumerate i attributes)))).
Proof.
  induction attributes as [|a rest IH]; intros i acc Hlen.
  - simpl. now rewrite g2_add_zero.
  - cbn [verify_loop]. cbn [length] in Hlen.
    rewrite (index_nth _ g2_zero) by lia. cbn [rbind].
    rewrite IH by lia.
    rewrite enumerate_cons. cbn [map g2_sum fold_right].
    unfold g2_hash_term at 2. cbn [fst snd].
    now rewrite g2_add_assoc.
Qed.

(** The loop of [verify] never looks at a flag. *)
Lemma verify_loop_flags (attributes1 : list Attribute) :
  forall (attributes2 : list Attribute) (i : nat) (acc : G2),
    map fst attributes1 = map fst attributes2 ->
    verify_loop idp_pk attributes1 i acc = verify_loop idp_pk attributes2 i acc.
Proof.
  induction attributes1 as [|[v1 h1] rest1 IH]; intros [|[v2 h2] rest2] i acc Hmap;
    try discriminate; [reflexivity|].
  cbn [map fst] in Hmap. injection Hmap as Hv Hrest. subst v2.
  cbn [verify_loop fst].
  destruct (index idp_pk.(Yg2) i) as [y|err]; cbn [rbind]; [|reflexivity].
  now apply IH.
Qed.

(** [verify] with a generator for every attribute. *)
Lemma verify_run (L : GroupLaws E) (sig1 sig2 : G1) (attributes : list Attribute) :
  (length attributes <= length idp_pk.(Yg2))%nat ->
  verify idp_pk (sig1, sig2) attributes
  = Ok (gt_eqb (e sig1 (aggregated_key idp_pk attributes)) (e sig2 idp_pk.(g2))).
Proof.
  intros Hlen. unfold verify.
  rewrite (verify_loop_sum L) by (simpl; lia). reflexivity.
Qed.

(** C2, as the code has it: when the public key has a generator for every
    attribute, [verify] returns exactly the outcome of the pairing equation
    [e(sig1, X + sum over all positions of Yg2[i] * hash(attr_i)) = e(sig2, g2)];
    it is true if and only if the equation holds, with no further test on
    [sig1]. *)
Theorem verify_is_pairing_equation (L : GroupLaws E) (sig1 sig2 : G1)
    (attributes : list Attribute) :
  (length attributes <= length idp_pk.(Yg2))%nat ->
  verify idp_pk (sig1, sig2) attributes
  = Ok (gt_eqb (e sig1 (aggregated_key idp_pk attributes)) (e sig2 idp_pk.(g2)))
  /\ (verify idp_pk (sig1, sig2) attributes = Ok true
      <-> e sig1 (aggregated_key idp_pk attributes) = e sig2 idp_pk.(g2)).
Proof.
  intros Hlen.
  pose proof (@verify_run L sig1 sig2 attributes Hlen) as Hv.
  split; [exact Hv|].
  rewrite Hv. split.
  - intros H. injection H as H. now apply gt_eqb_eq.
  - intros H. f_equal. now apply gt_eqb_eq.
Qed.

(** C10: [verify] gives the same answer on two attribute vectors that carry
    the same byte values position by position, whatever their hidden
    flags. *)
Theorem verify_ignores_hidden_flags (sig : G1 * G1)
    (attributes1 attributes2 : list Attribute) :
  map fst attributes1 = map fst attributes2 ->
  verify idp_pk sig attributes1 = verify idp_pk sig attributes2.
Proof.
  intros Hmap. destruct sig as [sig1 sig2]. unfold verify.
  now rewrite (verify_loop_flags attributes1 attributes2 0 idp_pk.(X) Hmap).
Qed.

(** C6, as the code has it: the scalar of an attribute is the same at
    commitment time and at verification time, namely the big-endian integer
    of its SHA-256 digest; it lies in [[0, 2^256)] and is not reduced modulo
    the group order. *)
Theorem attribute_hash_deterministic (value : bytes) (flag : bool) (i : nat) (acc : G2) :
  hash_hidden_attributes [(value, true)] = [from_binary (sha256 value)]
  /\ verify_loop idp_pk [(value, flag)] i acc
     = (y <-? index idp_pk.(Yg2) i ;;
        Ok (g2_add acc (g2_mul y (from_binary (sha256 value)))))
  /\ 0 <= from_binary (sha256 value) < 2 ^ 256.
Proof.
  split; [reflexivity|]. split.
  - cbn [verify_loop fst]. unfold attribute_hash.
    destruct (index idp_pk.(Yg2) i); reflexivity.
  - apply attribute_hash_range.
Qed.

(** C7: with the blinding factor [t] in the store, [unbind_sig] returns
    [(sig1, sig2 - sig1 * t)] and leaves the store as it was. *)
Theorem unbind_sig_removes_blinding (sig1 sig2 : G1) (t : Z) (s : store) :
  s.(self_t) = Some t ->
  unbind_sig (sig1, sig2) s = (Ok (sig1, g1_sub sig2 (g1_mul sig1 t)), s).
Proof.
  intros Ht. unfold unbind_sig, bind, get_t, lift, ret.
  rewrite Ht. reflexivity.
Qed.

(** C8, as the code has it: [unbind_sig] makes no test of its own on
    [self.__t]; on a client that made no request it hands [None] to the
    backend's multiplication, and the outcome is the backend's: its
    exception when it rejects the operand, the store untouched. *)
Theorem unbind_sig_without_request (sig1 sig2 : G1) (already_drawn : nat) :
  unbind_sig (sig1, sig2) (init already_drawn)
  = (blinding <-? g1_mul_none sig1 ;; Ok (sig1, g1_sub sig2 blinding),
     init already_drawn).
Proof.
  unfold unbind_sig, bind, get_t, lift, ret, init. cbn [self_t g1_mul_dyn].
  destruct (g1_mul_none sig1); reflexivity.
Qed.

End Verification.

(* ================================================================== *)
(** ** The same, on a session *)

Module VerificationRuns.

Import Zq Session.

(** C2 as stated fails: the signature made of two identity elements passes
    [verify], although its first component is the identity. *)
Lemma verify_accepts_identity_sig1 :
  ~ (verify pk (g1_zero, g1_zero) alice_hidden = Ok true
     <-> (e g1_zero (aggregated_key pk alice_hidden) = e g1_zero pk.(g2)
          /\ (g1_zero : G1) <> g1_zero)).
Proof.
  intros [Hclaim _].
  assert (Hrun : verify pk (g1_zero, g1_zero) alice_hidden = Ok true)
    by (vm_compute; reflexivity).
  destruct (Hclaim Hrun) as [_ Hne]. now apply Hne.
Qed.

Lemma verify_is_pairing_equation_witness :
  (length alice_hidden <= length pk.(Yg2))%nat
  /\ verify pk (of_Z 3, of_Z 4) alice_hidden
     = Ok (gt_eqb (e (of_Z 3) (aggregated_key pk alice_hidden)) (e (of_Z 4) pk.(g2))).
Proof.
  split; [vm_compute; lia|].
  apply (verify_is_pairing_equation pk ZqLaws.laws (of_Z 3) (of_Z 4) alice_hidden).
  vm_compute; lia.
Defined.

Lemma verify_ignores_hidden_flags_witness :
  map fst alice_hidden = map fst [(b_ "alice", false); (b_ "2024", true)]
  /\ verify pk (of_Z 3, of_Z 4) alice_hidden
     = verify pk (of_Z 3, of_Z 4) [(b_ "alice", false); (b_ "2024", true)].
Proof.
  split; [reflexivity|].
  apply (verify_ignores_hidden_flags pk (of_Z 3, of_Z 4) alice_hidden
           [(b_ "alice", false); (b_ "2024", true)]).
  reflexivity.
Defined.

End VerificationRuns.

(* ================================================================== *)
(** ** The commitment *)

Section Commitment.

Context {E : GroupEngine}.
Variable idp_pk : PubKey E.
Variable entropy : nat -> Z.

Lemma skipn_head {A} (l : list A) :
  forall (j : nat) (x : A) (tl : list A),
    skipn j l = x :: tl -> index l j = Ok x /\ skipn (S j) l = tl.
Proof.
  induction l as [|a l IH]; intros j x tl Hskip.
  - rewrite skipn_nil in Hskip. discriminate.
  - destruct j as [|j].
    + simpl in Hskip. injection Hskip as -> ->. split; reflexivity.
    + rewrite skipn_cons in Hskip. destruct (IH j x tl Hskip) as [Hidx Htl].
      split; [exact Hidx | now rewrite skipn_cons].
Qed.

Lemma hidden_slots_cons (start : nat) (a : Attribute) (rest : list Attribute) :
  hidden_slots start (a :: rest)
  = if snd a then (start, a) :: hidden_slots (S start) rest
    else hidden_slots (S start) rest.
Proof.
  unfold hidden_slots. rewrite enumerate_cons. cbn [filter snd].
  destruct (snd a); reflexivity.
Qed.

Lemma hidden_slots_none (attributes : list Attribute) :
  forall start : nat,
    count_hidden attributes = 0%nat -> hidden_slots start attributes = [].
Proof.
  unfold count_hidden.
  induction attributes as [|[v h] rest IH]; intros start Hnone; [reflexivity|].
  rewrite hidden_slots_cons. cbn [filter snd] in *.
  destruct h; [discriminate | now apply IH].
Qed.

Lemma hidden_slots_length (attributes : list Attribute) :
  forall start : nat,
    length (hidden_slots start attributes) = count_hidden attributes.
Proof.
  unfold count_hidden.
  induction attributes as [|[v h] rest IH]; intros start; [reflexivity|].
  rewrite hidden_slots_cons. cbn [filter snd].
  destruct h; cbn [length]; now rewrite IH.
Qed.

(** The loop adds [Yg1[i] * hashed[j]] for each hidden attribute, [j]
    counting the hidden ones only. *)
Lemma commitment_loop_sum (L : GroupLaws E) (attributes : list Attribute) :
  forall (i j : nat) (C : G1) (hashed : list Z),
    (i + length attributes <= length idp_pk.(Yg1))%nat ->
    skipn j hashed = hash_hidden_attributes attributes ->
    commitment_loop idp_pk hashed attributes i j C
    = Ok (g1_add C (g1_sum (map (g1_hash_term idp_pk) (hidden_slots i attributes)))).
Proof.
  induction attributes as [|[v h] rest IH]; intros i j C hashed Hlen Hskip.
  - simpl. now rewrite g1_add_zero.
  - cbn [commitment_loop snd]. rewrite hidden_slots_cons. cbn [snd length] in *.
    rewrite hash_hidden_attributes_filter in Hskip. cbn [filter snd] in Hskip.
    destruct h.
    + cbn [map fst] in Hskip.
      destruct (skipn_head hashed j Hskip) as [Hidx Htl].
      rewrite (index_nth _ g1_zero) by lia. cbn [rbind].
      rewrite Hidx. cbn [rbind].
      rewrite IH; [| lia | now rewrite hash_hidden_attributes_filter].
      cbn [map g1_sum fold_right]. unfold g1_hash_term at 2. cbn [fst snd].
      now rewrite g1_add_assoc.
    + apply IH; [lia | now rewrite hash_hidden_attributes_filter].
Qed.

(** The loop can fail in one way only. *)
Lemma commitment_loop_cases (attributes : list Attribute) :
  forall (i j : nat) (C : G1) (hashed : list Z),
    (exists C', commitment_loop idp_pk hashed attributes i j C = Ok C')
    \/ commitment_loop idp_pk hashed attributes i j C = Raise IndexError.
Proof.
  induction attributes as [|[v h] rest IH]; intros i j C hashed.
  - left. now exists C.
  - cbn [commitment_loop snd]. destruct h; [|apply IH].
    destruct (index_cases idp_pk.(Yg1) i) as [[y ->] | ->]; [|now right].
    cbn [rbind].
    destruct (index_cases hashed j) as [[x ->] | ->]; [|now right].
    cbn [rbind]. apply IH.
Qed.

(** [__create_commitment] with a generator for every attribute. *)
Lemma create_commitment_run (L : GroupLaws E) (attributes : list Attribute)
    (s : store) :
  (length attributes <= length idp_pk.(Yg1))%nat ->
  create_commitment idp_pk entropy (hash_hidden_attributes attributes) attributes s
  = (Ok (commitment_of idp_pk (entropy s.(drawn)) attributes),
     Store (Some (entropy s.(drawn))) (S s.(drawn))).
Proof.
  intros Hlen.
  unfold create_commitment, bind, o_random, set_t, lift. cbn [self_t drawn].
  rewrite (commitment_loop_sum L) by (simpl; try lia; reflexivity).
  reflexivity.
Qed.

(** C4: [__create_commitment], given the hashes of the hidden attributes in
    their order, draws one scalar [t] of the field, keeps it in [self.__t]
    and returns [g1 * t] plus [Yg1[i] * hash(attr_i)] over the hidden
    positions [i]; with no hidden attribute that is [g1 * t]. *)
Theorem create_commitment_spec (L : GroupLaws E) (attributes : list Attribute)
    (s : store) :
  (length attributes <= length idp_pk.(Yg1))%nat ->
  (forall n : nat, 0 <= entropy n < o) ->
  let t := entropy s.(drawn) in
  create_commitment idp_pk entropy (hash_hidden_attributes attributes) attributes s
  = (Ok (commitment_of idp_pk t attributes), Store (Some t) (S s.(drawn)))
  /\ 0 <= t < o
  /\ (count_hidden attributes = 0%nat
      -> commitment_of idp_pk t attributes = g1_mul idp_pk.(g1) t).
Proof.
  intros Hlen Hrange t. split; [|split].
  - now apply create_commitment_run.
  - apply Hrange.
  - intros Hnone. unfold commitment_of.
    rewrite (hidden_slots_none attributes 0 Hnone). cbn [map g1_sum fold_right].
    apply g1_add_zero.
Qed.

End Commitment.

(* ================================================================== *)
(** ** The proof of knowledge *)

Ltac run_step :=
  unfold bind, lift, ret, o_random, get_t, set_t; cbn [self_t drawn fst snd].

Section Proof.

Context {E : GroupEngine}.
Variable idp_pk : PubKey E.
Variable entropy : nat -> Z.

Lemma count_hidden_cons (a : Attribute) (rest : list Attribute) :
  count_hidden (a :: rest)
  = if snd a then S (count_hidden rest) else count_hidden rest.
Proof. unfold count_hidden. cbn [filter]. now destruct (snd a). Qed.

Lemma g1_sum_cons (x : G1) (terms : list G1) :
  g1_sum (x :: terms) = g1_add x (g1_sum terms).
Proof. reflexivity. Qed.

Lemma all_plain_count (attributes : list Attribute) :
  forallb (fun a : Attribute => negb (snd a)) attributes = true ->
  count_hidden attributes = 0%nat.
Proof.
  unfold count_hidden.
  induction attributes as [|[v h] rest IH]; intros Hall; [reflexivity|].
  cbn [forallb filter snd] in *. destruct h; [discriminate|]. now apply IH.
Qed.

Lemma some_hidden (attributes : list Attribute) :
  forallb (fun a : Attribute => negb (snd a)) attributes = false ->
  exists (j : nat) (w : bytes), nth_error attributes j = Some (w, true).
Proof.
  induction attributes as [|[v h] rest IH]; intros Hall; [discriminate|].
  cbn [forallb snd] in Hall. destruct h.
  - now exists 0%nat, v.
  - destruct (IH Hall) as (j & w & Hj). now exists (S j), w.
Qed.

Lemma hidden_not_all_plain (attributes : list Attribute) (j : nat) (w : bytes) :
  nth_error attributes j = Some (w, true) ->
  forallb (fun a : Attribute => negb (snd a)) attributes = false.
Proof.
  intros Hj.
  destruct (forallb (fun a : Attribute => negb (snd a)) attributes) eqn:Hall;
    [|reflexivity].
  rewrite forallb_forall in Hall.
  specialize (Hall (w, true) (nth_error_In _ _ Hj)). discriminate.
Qed.

(** The two ways of saying that the hidden attributes do not come first. *)
Lemma plain_before_hidden_iff (attributes : list Attribute) :
  plain_before_hidden attributes <-> hidden_prefix attributes = false.
Proof.
  split.
  - intros (i & j & v & w & Hij & Hi & Hj).
    revert i j Hij Hi Hj.
    induction attributes as [|[v0 h0] rest IH]; intros i j Hij Hi Hj.
    + destruct i; discriminate.
    + destruct j as [|j]; [lia|]. cbn [nth_error] in Hj.
      cbn [hidden_prefix snd]. destruct i as [|i].
      * cbn [nth_error] in Hi. injection Hi as -> ->.
        now apply hidden_not_all_plain with j w.
      * cbn [nth_error] in Hi. destruct h0.
        -- apply (IH i j); [lia | assumption | assumption].
        -- now apply hidden_not_all_plain with j w.
  - induction attributes as [|[v0 h0] rest IH]; intros Hpre; [discriminate|].
    cbn [hidden_prefix snd] in Hpre. destruct h0.
    + destruct (IH Hpre) as (i & j & v & w & Hij & Hi & Hj).
      exists (S i), (S j), v, w. repeat split; [lia | assumption | assumption].
    + destruct (some_hidden rest Hpre) as (j & w & Hj).
      exists 0%nat, (S j), v0, w. repeat split; [lia | assumption].
Qed.

(** Once a plain attribute has gone by, [randomness] is too short for the
    index [i + 1]: the next hidden attribute raises. *)
Lemma zkp_V_loop_drift (attributes : list Attribute) :
  forall (i : nat) (randomness : list Z) (V : G1) (s : store),
    (length randomness <= i)%nat ->
    forallb (fun a : Attribute => negb (snd a)) attributes = false ->
    exists s', zkp_V_loop idp_pk entropy attributes i randomness V s
               = (Raise IndexError, s').
Proof.
  induction attributes as [|[v h] rest IH]; intros i randomness V s Hlen Hhid;
    [discriminate|].
  cbn [forallb snd] in Hhid. cbn [zkp_V_loop snd]. destruct h.
  - run_step.
    destruct (index_cases idp_pk.(Yg1) i) as [[y ->] | ->]; [|eauto].
    rewrite index_out by (rewrite length_app; simpl; lia). eauto.
  - apply IH; [lia | assumption].
Qed.

(** While only hidden attributes have gone by, [randomness] has [i + 1]
    entries; the loop raises all the same if a plain one comes before a
    hidden one further on. *)
Lemma zkp_V_loop_raises (attributes : list Attribute) :
  forall (i : nat) (randomness : list Z) (V : G1) (s : store),
    length randomness = (i + 1)%nat ->
    hidden_prefix attributes = false ->
    exists s', zkp_V_loop idp_pk entropy attributes i randomness V s
               = (Raise IndexError, s').
Proof.
  induction attributes as [|[v h] rest IH]; intros i randomness V s Hlen Hpre;
    [discriminate|].
  cbn [hidden_prefix snd] in Hpre. cbn [zkp_V_loop snd]. destruct h.
  - run_step.
    destruct (index_cases idp_pk.(Yg1) i) as [[y ->] | ->]; [|eauto].
    rewrite <- Hlen, index_last.
    apply IH; [rewrite length_app; simpl; lia | assumption].
  - apply zkp_V_loop_drift; [lia | assumption].
Qed.

(** Plain attributes leave the loop's state alone. *)
Lemma zkp_V_loop_plain (attributes : list Attribute) :
  forall (i : nat) (randomness : list Z) (V : G1) (s : store),
    forallb (fun a : Attribute => negb (snd a)) attributes = true ->
    zkp_V_loop idp_pk entropy attributes i randomness V s = (Ok (randomness, V), s).
Proof.
  induction attributes as [|[v h] rest IH]; intros i randomness V s Hall;
    [reflexivity|].
  cbn [forallb snd] in Hall. cbn [zkp_V_loop snd]. destruct h; [discriminate|].
  now apply IH.
Qed.

(** When the hidden attributes come first, the loop draws one scalar for
    each and pairs it with the attribute's generator. *)
Lemma zkp_V_loop_prefix (L : GroupLaws E) (attributes : list Attribute) :
  forall (i : nat) (randomness : list Z) (V : G1) (s : store),
    length randomness = (i + 1)%nat ->
    hidden_prefix attributes = true ->
    (i + length attributes <= length idp_pk.(Yg1))%nat ->
    zkp_V_loop idp_pk entropy attributes i randomness V s
    = (Ok (randomness ++ map entropy (seq s.(drawn) (count_hidden attributes)),
           g1_add V
             (g1_sum (map (g1_random_term idp_pk)
                        (combine (hidden_slots i attributes)
                           (map entropy (seq s.(drawn) (count_hidden attributes))))))),
       Store s.(self_t) (s.(drawn) + count_hidden attributes)).
Proof.
  induction attributes as [|[v h] rest IH]; intros i randomness V s Hlen Hpre Hkeys.
  - destruct s as [t n]. cbn. rewrite app_nil_r, g1_add_zero, Nat.add_0_r.
    reflexivity.
  - cbn [hidden_prefix snd length] in *. cbn [zkp_V_loop snd].
    rewrite hidden_slots_cons, count_hidden_cons. cbn [snd]. destruct h.
    + run_step.
      rewrite (index_nth _ g1_zero) by lia.
      rewrite <- Hlen, index_last.
      rewrite IH; [| rewrite length_app; simpl; lia | assumption | simpl; lia].
      cbn [self_t drawn seq map combine].
      rewrite g1_sum_cons. unfold g1_random_term at 2. cbn [fst snd].
      rewrite <- app_assoc, g1_add_assoc.
      replace (S (drawn s) + count_hidden rest)%nat
        with (drawn s + S (count_hidden rest))%nat by lia.
      reflexivity.
    + rewrite zkp_V_loop_plain by assumption.
      rewrite (all_plain_count rest Hpre).
      rewrite (hidden_slots_none rest (S i) (all_plain_count rest Hpre)).
      destruct s as [t n]. cbn. rewrite app_nil_r, g1_add_zero, Nat.add_0_r.
      reflexivity.
Qed.

(** The loop over the hashed attributes reads the scalars after the first,
    one per hash. *)
Lemma zkp_r_loop_responses (c : Z) (randomness : list Z) (hashed : list Z) :
  forall (rs : list Z) (i : nat) (r : list Z),
    skipn (S i) randomness = rs ->
    (length hashed <= length rs)%nat ->
    zkp_r_loop hashed i randomness c r = Ok (r ++ responses_of rs hashed c).
Proof.
  induction hashed as [|h hashed IH]; intros rs i r Hskip Hlen.
  - cbn. destruct rs; cbn; now rewrite app_nil_r.
  - destruct rs as [|x rs]; [simpl in Hlen; lia|].
    destruct (skipn_head randomness (S i) Hskip) as [Hidx Htl].
    cbn [zkp_r_loop]. rewrite Nat.add_1_r, Hidx. cbn [rbind].
    rewrite (IH rs (S i)); [| assumption | simpl in Hlen; lia].
    unfold responses_of. cbn [combine map fst snd].
    now rewrite <- app_assoc.
Qed.


Lemma responses_of_length (randoms secrets : list Z) (c : Z) :
  length randoms = length secrets ->
  length (responses_of randoms secrets c) = length secrets.
Proof.
  intros Hlen. unfold responses_of.
  rewrite length_map, length_combine. lia.
Qed.

Lemma responses_of_nth (c : Z) (randoms : list Z) :
  forall (secrets : list Z) (k : nat),
    (k < length randoms)%nat -> (k < length secrets)%nat ->
    nth k (responses_of randoms secrets c) 0
    = nth k randoms 0 - nth k secrets 0 * c.
Proof.
  induction randoms as [|x randoms IH]; intros secrets k Hr Hs; [simpl in Hr; lia|].
  destruct secrets as [|y secrets]; [simpl in Hs; lia|].
  destruct k as [|k]; [reflexivity|].
  cbn [responses_of combine map nth]. apply IH; simpl in *; lia.
Qed.

Lemma entropy_nth (start len k : nat) :
  (k < len)%nat -> nth k (map entropy (seq start len)) 0 = entropy (start + k).
Proof.
  intros Hk.
  rewrite (nth_indep _ 0 (entropy 0)) by (rewrite length_map, length_seq; lia).
  rewrite map_nth. now rewrite seq_nth.
Qed.

(** [create_zkp] when the hidden attributes come first, the public key has
    a generator for every attribute and [self.__t] holds [t]: it draws
    [1 + |hidden|] scalars, and [V], [c] and [r] are those of the
    protocol. *)
Lemma create_zkp_prefix (L : GroupLaws E) (attributes : list Attribute)
    (C : G1) (data : bytes) (s : store) (t : Z) :
  hidden_prefix attributes = true ->
  (length attributes <= length idp_pk.(Yg1))%nat ->
  s.(self_t) = Some t ->
  let random_0 := entropy s.(drawn) in
  let randoms := map entropy (seq (S s.(drawn)) (count_hidden attributes)) in
  let V := proof_commitment_of idp_pk random_0 randoms attributes in
  let c := to_challenge [g1_export C; g1_export V; data] in
  create_zkp idp_pk entropy attributes (hash_hidden_attributes attributes) C data s
  = (Ok (V, c,
         responses_of (random_0 :: randoms) (t :: hash_hidden_attributes attributes) c),
     Store (Some t) (S s.(drawn) + count_hidden attributes)).
Proof.
  intros Hpre Hkeys Ht random_0 randoms V c.
  unfold create_zkp. run_step. cbn [index nth_error].
  rewrite (zkp_V_loop_prefix L) by (simpl; try lia; assumption).
  cbn [self_t drawn app index nth_error]. rewrite Ht. cbn [bn_mul_dyn].
  fold random_0. fold randoms.
  rewrite (zkp_r_loop_responses _ (random_0 :: randoms)
             (hash_hidden_attributes attributes) (rs := randoms) 0);
    [| reflexivity
     | unfold randoms; rewrite length_map, length_seq,
         hash_hidden_attributes_length; lia ].
  reflexivity.
Qed.

(** [create_zkp] and [request_id] when a plain attribute comes before a
    hidden one. *)
Lemma create_zkp_raises (attributes : list Attribute) (hashed : list Z)
    (C : G1) (data : bytes) (s : store) :
  hidden_prefix attributes = false ->
  exists s', create_zkp idp_pk entropy attributes hashed C data s
             = (Raise IndexError, s').
Proof.
  intros Hpre. unfold create_zkp. run_step. cbn [index nth_error].
  destruct (@zkp_V_loop_raises attributes 0 [entropy (drawn s)]
              (g1_mul idp_pk.(g1) (entropy (drawn s)))
              (Store (self_t s) (S (drawn s))) eq_refl Hpre) as [s' ->].
  eauto.
Qed.

Lemma request_id_raises (attributes : list Attribute) (data : bytes) (s : store) :
  hidden_prefix attributes = false ->
  exists s', request_id idp_pk entropy attributes data s = (Raise IndexError, s').
Proof.
  intros Hpre. unfold request_id, create_commitment. run_step.
  destruct (@commitment_loop_cases E idp_pk attributes 0 0
              (g1_mul idp_pk.(g1) (entropy (drawn s)))
              (hash_hidden_attributes attributes)) as [[C ->] | ->]; [|eauto].
  destruct (@create_zkp_raises attributes (hash_hidden_attributes attributes) C data
              (Store (Some (entropy (drawn s))) (S (drawn s))) Hpre) as [s' ->].
  eauto.
Qed.

(** C5, as the code has it: when [create_zkp] returns (hidden attributes
    first, a generator for each attribute, [t] in the store), [r] has
    [1 + |hidden|] entries, [r_0 = random_0 - t * c] and
    [r_k = random_k - hashed_attribute_k * c] for the k-th hidden attribute,
    all as plain integers: no reduction modulo the group order is made. *)
Theorem create_zkp_responses (L : GroupLaws E) (attributes : list Attribute)
    (C : G1) (data : bytes) (s : store) (t : Z) :
  hidden_prefix attributes = true ->
  (length attributes <= length idp_pk.(Yg1))%nat ->
  s.(self_t) = Some t ->
  exists (V : G1) (c : Z) (r : list Z) (s' : store),
    create_zkp idp_pk entropy attributes (hash_hidden_attributes attributes) C data s
    = (Ok (V, c, r), s')
    /\ c = to_challenge [g1_export C; g1_export V; data]
    /\ length r = (1 + count_hidden attributes)%nat
    /\ nth 0 r 0 = entropy s.(drawn) - t * c
    /\ (forall k : nat,
          (1 <= k <= count_hidden attributes)%nat ->
          nth k r 0
          = entropy (s.(drawn) + k)
            - nth (k - 1) (hash_hidden_attributes attributes) 0 * c).
Proof.
  intros Hpre Hkeys Ht.
  pose proof (@create_zkp_prefix L attributes C data s t Hpre Hkeys Ht) as Hrun.
  cbv zeta in Hrun.
  eexists _, _, _, _. split; [exact Hrun|].
  split; [reflexivity|]. split; [|split].
  - rewrite responses_of_length; cbn [length];
      rewrite ?length_map, ?length_seq, hash_hidden_attributes_length; lia.
  - reflexivity.
  - intros k Hk. destruct k as [|k]; [lia|].
    rewrite responses_of_nth
      by (cbn [length];
          rewrite ?length_map, ?length_seq, ?hash_hidden_attributes_length; lia).
    cbn [nth]. rewrite entropy_nth by lia.
    replace (S k - 1)%nat with k by lia.
    replace (S (drawn s) + k)%nat with (drawn s + S k)%nat by lia.
    reflexivity.
Qed.

(** C9: when some plain attribute comes before some hidden one, the hidden
    attributes are not a prefix, and both [create_zkp] (whatever hashes,
    commitment and data it is given) and [request_id] raise [IndexError];
    no request comes out. *)
Theorem plain_before_hidden_raises (attributes : list Attribute) :
  plain_before_hidden attributes ->
  hidden_prefix attributes = false
  /\ (forall (hashed : list Z) (C : G1) (data : bytes) (s : store),
        exists s', create_zkp idp_pk entropy attributes hashed C data s
                   = (Raise IndexError, s'))
  /\ (forall (data : bytes) (s : store),
        exists s', request_id idp_pk entropy attributes data s
                   = (Raise IndexError, s')).
Proof.
  intros Hpbh. apply plain_before_hidden_iff in Hpbh.
  split; [assumption|]. split.
  - intros hashed C data s. now apply create_zkp_raises.
  - intros data s. now apply request_id_raises.
Qed.

End Proof.

(* ================================================================== *)
(** ** The round trip *)

Section RoundTrip.

Context {E : GroupEngine}.
Variables (gen1 : G1) (gen2 : G2) (x : Z) (ys : list Z).
Variable entropy : nat -> Z.

Let pk : PubKey E := keygen gen1 gen2 x ys.

Lemma exponent_sum_split (attributes : list Attribute) :
  forall i : nat,
    exponent_sum ys (fun _ => true) i attributes
    = exponent_sum ys (fun a => snd a) i attributes
      + exponent_sum ys (fun a => negb (snd a)) i attributes.
Proof.
  induction attributes as [|[v h] rest IH]; intros i; [reflexivity|].
  cbn [exponent_sum snd]. rewrite IH. destruct h; cbn [negb]; lia.
Qed.

Lemma Yg1_nth (i : nat) :
  (i < length ys)%nat -> nth i pk.(Yg1) g1_zero = g1_mul gen1 (nth i ys 0).
Proof.
  intros Hi. cbn [pk keygen Yg1].
  rewrite (nth_indep _ g1_zero (g1_mul gen1 0)) by (rewrite length_map; lia).
  apply map_nth.
Qed.

Lemma Yg2_nth (i : nat) :
  (i < length ys)%nat -> nth i pk.(Yg2) g2_zero = g2_mul gen2 (nth i ys 0).
Proof.
  intros Hi. cbn [pk keygen Yg2].
  rewrite (nth_indep _ g2_zero (g2_mul gen2 0)) by (rewrite length_map; lia).
  apply map_nth.
Qed.

(** The commitment is the generator scaled by [t] plus the hidden exponent. *)
Lemma hidden_terms_exponent (L : GroupLaws E) (attributes : list Attribute) :
  forall (i : nat) (k : Z),
    (i + length attributes <= length ys)%nat ->
    g1_add (g1_mul gen1 k) (g1_sum (map (g1_hash_term pk) (hidden_slots i attributes)))
    = g1_mul gen1 (k + exponent_sum ys (fun a => snd a) i attributes).
Proof.
  induction attributes as [|[v h] rest IH]; intros i k Hlen.
  - cbn. now rewrite g1_add_zero, Z.add_0_r.
  - rewrite hidden_slots_cons. cbn [exponent_sum snd length] in *. destruct h.
    + cbn [map]. rewrite g1_sum_cons, g1_add_assoc.
      unfold g1_hash_term at 1. cbn [fst snd].
      rewrite Yg1_nth by lia. rewrite g1_mul_mul, <- g1_mul_plus.
      rewrite IH by lia. f_equal. lia.
    + rewrite IH by lia. f_equal.
Qed.

(** The key [verify] recomputes is the generator scaled by the whole
    exponent. *)
Lemma all_terms_exponent (L : GroupLaws E) (attributes : list Attribute) :
  forall (i : nat) (k : Z),
    (i + length attributes <= length ys)%nat ->
    g2_add (g2_mul gen2 k) (g2_sum (map (g2_hash_term pk) (enumerate i attributes)))
    = g2_mul gen2 (k + exponent_sum ys (fun _ => true) i attributes).
Proof.
  induction attributes as [|[v h] rest IH]; intros i k Hlen.
  - cbn. now rewrite g2_add_zero, Z.add_0_r.
  - rewrite enumerate_cons. cbn [exponent_sum length map] in *.
    change (g2_sum (?a :: ?l)) with (g2_add a (g2_sum l)).
    rewrite g2_add_assoc. unfold g2_hash_term at 1. cbn [fst snd].
    rewrite Yg2_nth by lia. rewrite g2_mul_mul, <- g2_mul_plus.
    rewrite IH by lia. f_equal. lia.
Qed.

(** The issuer adds the plain exponent. *)
Lemma issuer_plain_terms_exponent (L : GroupLaws E) (attributes : list Attribute) :
  forall (i : nat) (k : Z),
    (i + length attributes <= length ys)%nat ->
    issuer_plain_terms pk
      (map (fun attr : Attribute => if snd attr then Placeholder else Plain (fst attr))
           attributes)
      i (g1_mul gen1 k)
    = Ok (g1_mul gen1 (k + exponent_sum ys (fun a => negb (snd a)) i attributes)).
Proof.
  induction attributes as [|[v h] rest IH]; intros i k Hlen.
  - cbn. now rewrite Z.add_0_r.
  - cbn [map snd fst exponent_sum negb length] in *. destruct h.
    + cbn [issuer_plain_terms negb]. rewrite IH by lia. reflexivity.
    + cbn [issuer_plain_terms negb].
      rewrite (index_nth _ g1_zero) by (cbn [pk keygen Yg1]; rewrite length_map; lia).
      cbn [rbind]. rewrite Yg1_nth by lia.
      rewrite g1_mul_mul, <- g1_mul_plus. rewrite IH by lia.
      do 2 f_equal. unfold attribute_hash. lia.
Qed.

Lemma g1_add_sub (L : GroupLaws E) (a b : G1) : g1_sub (g1_add a b) b = a.
Proof.
  now rewrite g1_sub_neg, <- g1_add_assoc, g1_add_neg, g1_add_zero.
Qed.

(** The round trip on the vectors [request_id] accepts: hidden attributes
    first (none, some or all of them hidden), under a key pair of the
    scheme with a generator for every attribute, a faithful signature,
    unblinded in the same session, verifies. *)
Lemma round_trip_hidden_first (L : GroupLaws E) (u : Z)
    (attributes : list Attribute) (data : bytes) (s : store) :
  hidden_prefix attributes = true ->
  (length attributes <= length ys)%nat ->
  exists s', round_trip pk entropy x u attributes data s = (Ok true, s').
Proof.
  intros Hpre Hlen.
  assert (Hkeys : (length attributes <= length pk.(Yg1))%nat)
    by (cbn [pk keygen Yg1]; rewrite length_map; exact Hlen).
  assert (Hkeys2 : (length attributes <= length pk.(Yg2))%nat)
    by (cbn [pk keygen Yg2]; rewrite length_map; exact Hlen).
  set (t := entropy (drawn s)).
  unfold round_trip, request_id.
  unfold bind at 1. unfold bind at 1.
  rewrite (@create_commitment_run E pk entropy L attributes s Hkeys). fold t.
  unfold bind at 1.
  rewrite (@create_zkp_prefix E pk entropy L attributes
             (commitment_of pk t attributes) data
             (Store (Some t) (S (drawn s))) t Hpre Hkeys eq_refl).
  cbn [ret]. unfold bind at 1. unfold lift at 1.
  unfold issuer_sign. cbn [req_attributes req_C].
  unfold commitment_of. cbn [pk keygen g1]. fold pk.
  rewrite g1_add_assoc, <- g1_mul_plus.
  rewrite (hidden_terms_exponent L) by (simpl; lia).
  rewrite (issuer_plain_terms_exponent L) by (simpl; lia).
  cbn [rbind]. unfold bind at 1.
  unfold unbind_sig. run_step. cbn [g1_mul_dyn].
  rewrite (@verify_run E pk L _ _ attributes Hkeys2).
  eexists. do 2 f_equal. apply gt_eqb_eq.
  unfold aggregated_key. cbn [pk keygen X g2]. fold pk.
  rewrite (all_terms_exponent L) by (simpl; lia).
  rewrite exponent_sum_split.
  rewrite <- e_bilinear. f_equal.
  rewrite !g1_mul_mul.
  set (Sh := exponent_sum ys (fun a => snd a) 0 attributes).
  set (Sp := exponent_sum ys (fun a => negb (snd a)) 0 attributes).
  replace ((x + t + Sh + Sp) * u) with (u * (x + (Sh + Sp)) + u * t) by lia.
  rewrite g1_mul_plus. now rewrite g1_add_sub.
Qed.

End RoundTrip.

(* ================================================================== *)
(** ** The same, on a session *)

Module SessionRuns.

Import Zq Session.

Lemma entropy_range (n : nat) : 0 <= entropy n < o.
Proof. apply Z.mod_pos_bound. reflexivity. Qed.

Lemma alice_late_plain_before_hidden : plain_before_hidden alice_late.
Proof.
  exists 0%nat, 1%nat, (b_ "2024"), (b_ "alice").
  repeat split. lia.
Qed.

(** C1 does not hold of the code.  With the plain attribute ["2024"] before
    the hidden attribute ["alice"], the session stops in [request_id] with
    an [IndexError], after the blinding factor and two more scalars have
    been drawn: there is no request to sign and nothing to verify. *)
Theorem round_trip_stops_plain_before_hidden :
  round_trip pk entropy 1234567 99 alice_late (b_ "now") (init 0)
  = (Raise IndexError, Store (Some 1000003) 3).
Proof. vm_compute. reflexivity. Qed.

(** C3 does not hold of the code.  On the same vector [create_zkp] draws
    its first scalar and the one of the hidden attribute, then reads
    [randomness[2]] in a list of two and raises [IndexError]: no [V] comes
    out. *)
Theorem create_zkp_stops_plain_before_hidden :
  create_zkp pk entropy alice_late (hash_hidden_attributes alice_late)
    (g1_mul pk.(g1) 1000003) (b_ "now") (Store (Some 1000003) 1)
  = (Raise IndexError, Store (Some 1000003) 3).
Proof. vm_compute. reflexivity. Qed.

Lemma create_commitment_spec_witness :
  (length alice_hidden <= length pk.(Yg1))%nat
  /\ create_commitment pk entropy (hash_hidden_attributes alice_hidden) alice_hidden
       (init 0)
     = (Ok (commitment_of pk (entropy 0) alice_hidden), Store (Some (entropy 0)) 1).
Proof.
  split; [vm_compute; lia|].
  apply (@create_commitment_spec engine pk entropy ZqLaws.laws alice_hidden (init 0)).
  - vm_compute; lia.
  - exact entropy_range.
Defined.

(** C5 as stated fails: the responses of a request for ["alice"] hidden and
    ["2024"] plain are negative integers, not scalars of [[0, o)]. *)
Lemma responses_not_reduced :
  exists (V : G1) (c : Z) (r : list Z) (s' : store),
    create_zkp pk entropy alice_hidden (hash_hidden_attributes alice_hidden)
      (g1_mul pk.(g1) 1000003) (b_ "now") (Store (Some 1000003) 1)
    = (Ok (V, c, r), s')
    /\ length r = 2%nat
    /\ ~ (0 <= nth 0 r 0 < o)
    /\ ~ (0 <= nth 1 r 0 < o).
Proof.
  eexists _, _, _, _. split; [vm_compute; reflexivity|].
  split; [reflexivity|].
  split; intros [Hlo _]; vm_compute in Hlo; now apply Hlo.
Qed.

Lemma create_zkp_responses_witness :
  hidden_prefix alice_hidden = true
  /\ (length alice_hidden <= length pk.(Yg1))%nat
  /\ exists (V : G1) (c : Z) (r : list Z) (s' : store),
       create_zkp pk entropy alice_hidden (hash_hidden_attributes alice_hidden)
         (g1_mul pk.(g1) 1000003) (b_ "now") (Store (Some 1000003) 1)
       = (Ok (V, c, r), s')
       /\ length r = 2%nat.
Proof.
  split; [reflexivity|]. split; [vm_compute; lia|].
  destruct (@create_zkp_responses engine pk entropy ZqLaws.laws alice_hidden
              (g1_mul pk.(g1) 1000003) (b_ "now") (Store (Some 1000003) 1) 1000003)
    as (V & c & r & s' & Hrun & _ & Hlen & _).
  - reflexivity.
  - vm_compute; lia.
  - reflexivity.
  - exists V, c, r, s'. split; [exact Hrun | exact Hlen].
Defined.

(** C6 as stated fails: the scalar of the hidden attribute ["alice"] is the
    digest read as an integer, above the group order. *)
Lemma attribute_hash_not_reduced :
  exists h : Z,
    hash_hidden_attributes [(b_ "alice", true)] = [h] /\ ~ (0 <= h < o).
Proof.
  eexists. split; [vm_compute; reflexivity|].
  intros [_ Hhi]. vm_compute in Hhi. discriminate.
Qed.

Lemma unbind_sig_removes_blinding_witness :
  unbind_sig (of_Z 3, of_Z 4) (Store (Some 1000003) 3)
  = (Ok (of_Z 3, g1_sub (of_Z 4) (g1_mul (of_Z 3) 1000003)), Store (Some 1000003) 3).
Proof.
  apply (@unbind_sig_removes_blinding engine (of_Z 3) (of_Z 4) 1000003
           (Store (Some 1000003) 3)).
  reflexivity.
Defined.

(** C8 as stated fails: on a client that made no request, [unbind_sig]
    ends with the backend's [TypeError] for the operand [None]; no state
    error is raised. *)
Lemma unbind_sig_without_request_no_state_error :
  unbind_sig (E := engine) (of_Z 3, of_Z 4) (init 0) = (Raise TypeError, init 0)
  /\ ~ (exists s' : store,
          unbind_sig (E := engine) (of_Z 3, of_Z 4) (init 0)
          = (Raise (OtherError "StateError"), s')).
Proof.
  split; [reflexivity|]. intros [s' H]. discriminate H.
Qed.

Lemma plain_before_hidden_raises_witness :
  plain_before_hidden alice_late
  /\ hidden_prefix alice_late = false
  /\ (exists s', request_id pk entropy alice_late (b_ "now") (init 0)
                 = (Raise IndexError, s')).
Proof.
  split; [exact alice_late_plain_before_hidden|].
  destruct (@plain_before_hidden_raises engine pk entropy alice_late
              alice_late_plain_before_hidden) as (Hpre & _ & Hreq).
  split; [exact Hpre | exact (Hreq (b_ "now") (init 0))].
Defined.

(** The round trip goes through with no, one or all attributes hidden. *)
Example round_trip_hidden_counts :
  fst (round_trip pk entropy 1234567 99
         [(b_ "alice", false); (b_ "2024", false)] (b_ "now") (init 0)) = Ok true
  /\ fst (round_trip pk entropy 1234567 99 alice_hidden (b_ "now") (init 0)) = Ok true
  /\ fst (round_trip pk entropy 1234567 99
            [(b_ "alice", true); (b_ "2024", true)] (b_ "now") (init 0)) = Ok true.
Proof. repeat split; vm_compute; reflexivity. Qed.

End SessionRuns.

(* ================================================================== *)
(** * Further properties of the client *)

Module ZqModuleLaws.

Import Zq.

Lemma mul_add (a b : elt) (x : Z) : mul (add a b) x = add (mul a x) (mul b x).
Proof.
  apply ZqLaws.val_inj; simpl.
  rewrite Z.mul_mod_idemp_l by (pose proof q_pos; lia).
  rewrite <- Z.add_mod by (pose proof q_pos; lia).
  f_equal; lia.
Qed.

Lemma mul_zero (a : elt) : mul a 0 = zero.
Proof. apply ZqLaws.val_inj; simpl. f_equal; lia. Qed.

#[export] Instance module_laws : ModuleLaws Zq.engine.
Proof.
  constructor; simpl.
  - exact mul_add.
  - exact mul_zero.
Qed.

End ZqModuleLaws.

(** ** Consequences of the laws *)

Section GroupFacts.

Context {E : GroupEngine} (L : GroupLaws E).

Lemma g1_zero_add (a : G1) : g1_add g1_zero a = a.
Proof. rewrite g1_add_comm. apply g1_add_zero. Qed.

Lemma g1_add_cancel (a b : G1) : g1_add a b = a -> b = g1_zero.
Proof.
  intros H.
  assert (Hn : g1_add (g1_neg a) a = g1_zero)
    by (rewrite g1_add_comm; apply g1_add_neg).
  rewrite <- (g1_zero_add b). rewrite <- Hn at 1.
  rewrite <- g1_add_assoc, H. exact Hn.
Qed.

Lemma g1_mul_0 (a : G1) : g1_mul a 0 = g1_zero.
Proof.
  apply (@g1_add_cancel (g1_mul a 0) (g1_mul a 0)).
  rewrite <- g1_mul_plus. reflexivity.
Qed.

Lemma g1_add_swap4 (a b c d : G1) :
  g1_add (g1_add a b) (g1_add c d) = g1_add (g1_add a c) (g1_add b d).
Proof.
  rewrite <- (g1_add_assoc a b), (g1_add_assoc b c d), (g1_add_comm b c).
  rewrite <- (g1_add_assoc c b d). now rewrite (g1_add_assoc a c).
Qed.

Lemma g1_zero_mul (M : ModuleLaws E) (x : Z) : g1_mul g1_zero x = g1_zero.
Proof.
  apply (@g1_add_cancel (g1_mul g1_zero x) (g1_mul g1_zero x)).
  rewrite <- g1_mul_add. now rewrite g1_add_zero.
Qed.

(** The pairing of the identity of group 1 does not depend on its second
    argument. *)
Lemma e_zero (M : ModuleLaws E) (a : G2) : e g1_zero a = e g1_zero g2_zero.
Proof.
  rewrite <- (g1_mul_0 g1_zero) at 1.
  rewrite e_bilinear. now rewrite g2_mul_zero.
Qed.

End GroupFacts.

(** ** Missing generators *)

Section MissingGenerators.

Context {E : GroupEngine}.
Variable idp_pk : PubKey E.
Variable entropy : nat -> Z.

Lemma verify_loop_returns (attributes : list Attribute) :
  forall (i : nat) (acc : G2),
    (i + length attributes <= length idp_pk.(Yg2))%nat ->
    exists Z, verify_loop idp_pk attributes i acc = Ok Z.
Proof.
  induction attributes as [|a rest IH]; intros i acc Hlen.
  - now exists acc.
  - cbn [verify_loop]. cbn [length] in Hlen.
    rewrite (index_nth _ g2_zero) by lia. cbn [rbind]. apply IH. lia.
Qed.

Lemma verify_loop_short (attributes : list Attribute) :
  forall (i : nat) (acc : G2),
    (i <= length idp_pk.(Yg2))%nat ->
    (length idp_pk.(Yg2) < i + length attributes)%nat ->
    verify_loop idp_pk attributes i acc = Raise IndexError.
Proof.
  induction attributes as [|a rest IH]; intros i acc Hi Hlen.
  - simpl in Hlen. lia.
  - cbn [verify_loop]. cbn [length] in Hlen.
    destruct (Nat.eq_dec i (length idp_pk.(Yg2))) as [Heq | Hne].
    + rewrite index_out by lia. reflexivity.
    + rewrite (index_nth _ g2_zero) by lia. cbn [rbind]. apply IH; lia.
Qed.

(** X4: [verify] answers with a boolean exactly when [Yg2] has a generator
    for every attribute; with more attributes than generators it raises
    [IndexError], whatever the signature: it does not answer false. *)
Theorem verify_raises_iff_short (sig : G1 * G1) (attributes : list Attribute) :
  (verify idp_pk sig attributes = Raise IndexError
   <-> (length idp_pk.(Yg2) < length attributes)%nat)
  /\ ((exists b : bool, verify idp_pk sig attributes = Ok b)
      <-> (length attributes <= length idp_pk.(Yg2))%nat).
Proof.
  destruct sig as [sig1 sig2]. unfold verify.
  destruct (Nat.le_gt_cases (length attributes) (length idp_pk.(Yg2)))
    as [Hle | Hgt].
  - destruct (verify_loop_returns attributes 0 idp_pk.(X)) as [Z HZ];
      [simpl; lia|].
    rewrite HZ. cbn [rbind]. split; split.
    + discriminate.
    + lia.
    + intros _. exact Hle.
    + intros _. eauto.
  - rewrite verify_loop_short by (simpl; lia). cbn [rbind]. split; split.
    + intros _. exact Hgt.
    + reflexivity.
    + intros [b Hb]. discriminate.
    + lia.
Qed.

(** X6: the signature made of two identity elements passes [verify] for
    every attribute vector the public key has generators for. *)
Theorem verify_accepts_identity_pair (L : GroupLaws E) (M : ModuleLaws E)
    (attributes : list Attribute) :
  (length attributes <= length idp_pk.(Yg2))%nat ->
  verify idp_pk (g1_zero, g1_zero) attributes = Ok true.
Proof.
  intros Hlen. rewrite (@verify_run E idp_pk L _ _ attributes Hlen).
  f_equal. apply gt_eqb_eq.
  rewrite (e_zero L M (aggregated_key idp_pk attributes)).
  now rewrite (e_zero L M idp_pk.(g2)).
Qed.

Lemma hash_hidden_attributes_cons (a : Attribute) (rest : list Attribute) :
  hash_hidden_attributes (a :: rest)
  = if snd a then attribute_hash (fst a) :: hash_hidden_attributes rest
    else hash_hidden_attributes rest.
Proof.
  rewrite !hash_hidden_attributes_filter. cbn [filter].
  destruct (snd a); reflexivity.
Qed.

(** The loop of [__create_commitment] needs a generator at the hidden
    positions only. *)
Lemma commitment_loop_keys (L : GroupLaws E) (attributes : list Attribute) :
  forall (i j : nat) (C : G1) (hashed : list Z),
    skipn j hashed = hash_hidden_attributes attributes ->
    commitment_loop idp_pk hashed attributes i j C
    = if forallb (fun slot : nat * Attribute =>
                    (fst slot <? length idp_pk.(Yg1))%nat)
                 (hidden_slots i attributes)
      then Ok (g1_add C (g1_sum (map (g1_hash_term idp_pk)
                                     (hidden_slots i attributes))))
      else Raise IndexError.
Proof.
  induction attributes as [|[v h] rest IH]; intros i j C hashed Hskip.
  - simpl. now rewrite g1_add_zero.
  - cbn [commitment_loop snd]. rewrite hidden_slots_cons. cbn [snd].
    rewrite hash_hidden_attributes_cons in Hskip. cbn [snd fst] in Hskip.
    destruct h.
    + cbn [forallb fst].
      destruct (skipn_head hashed j Hskip) as [Hidx Htl].
      destruct (Nat.ltb_spec i (length idp_pk.(Yg1))) as [Hlt | Hge].
      * rewrite (index_nth _ g1_zero) by lia. cbn [rbind andb].
        rewrite Hidx. cbn [rbind]. rewrite (IH (S i) (S j)) by assumption.
        destruct (forallb _ (hidden_slots (S i) rest)); [|reflexivity].
        cbn [map]. rewrite g1_sum_cons. unfold g1_hash_term at 2.
        cbn [fst snd]. now rewrite g1_add_assoc.
      * rewrite index_out by lia. reflexivity.
    + now apply IH.
Qed.

(** X5: [__create_commitment] returns the commitment when every hidden
    position has a generator in [Yg1] (plain positions need none) and
    raises [IndexError] otherwise; in both cases one scalar has been
    drawn and is kept in [self.__t]. *)
Theorem create_commitment_keys (L : GroupLaws E) (attributes : list Attribute)
    (s : store) :
  create_commitment idp_pk entropy (hash_hidden_attributes attributes) attributes s
  = (if hidden_covered idp_pk attributes
     then Ok (commitment_of idp_pk (entropy s.(drawn)) attributes)
     else Raise IndexError,
     Store (Some (entropy s.(drawn))) (S s.(drawn))).
Proof.
  unfold create_commitment, bind, o_random, set_t, lift. cbn [self_t drawn].
  rewrite (commitment_loop_keys L) by reflexivity.
  unfold hidden_covered, commitment_of.
  destruct (forallb _ (hidden_slots 0 attributes)); reflexivity.
Qed.

End MissingGenerators.

(** ** Requests and their proofs *)

Section Requests.

Context {E : GroupEngine}.
Variable idp_pk : PubKey E.
Variable entropy : nat -> Z.

Lemma zkp_V_loop_self_t (attributes : list Attribute) :
  forall (i : nat) (randomness : list Z) (V : G1) (s : store),
    self_t (snd (zkp_V_loop idp_pk entropy attributes i randomness V s)) = self_t s.
Proof.
  induction attributes as [|[v h] rest IH]; intros i randomness V s; [reflexivity|].
  cbn [zkp_V_loop snd]. destruct h; [|apply IH].
  run_step.
  destruct (index idp_pk.(Yg1) i) as [y|err]; [|reflexivity].
  destruct (index (randomness ++ [entropy (drawn s)]) (i + 1)) as [x|err];
    [|reflexivity].
  now rewrite IH.
Qed.

Lemma create_zkp_self_t (attributes : list Attribute) (hashed : list Z)
    (C : G1) (data : bytes) (s : store) :
  self_t (snd (create_zkp idp_pk entropy attributes hashed C data s)) = self_t s.
Proof.
  unfold create_zkp. run_step. cbn [index nth_error].
  pose proof (zkp_V_loop_self_t attributes 0 [entropy (drawn s)]
                (g1_mul idp_pk.(g1) (entropy (drawn s)))
                (Store (self_t s) (S (drawn s)))) as Hself.
  destruct (zkp_V_loop idp_pk entropy attributes 0 [entropy (drawn s)]
              (g1_mul idp_pk.(g1) (entropy (drawn s)))
              (Store (self_t s) (S (drawn s)))) as [[[randomness V]|err] s1];
    cbn [snd self_t] in Hself; [|exact Hself].
  destruct (index randomness 0) as [x0|err]; [|exact Hself].
  destruct (bn_mul_dyn (self_t s1) _) as [tc|err]; [|exact Hself].
  destruct (zkp_r_loop hashed 0 randomness _ _) as [r|err]; exact Hself.
Qed.

(** X2: whatever its arguments and whether it returns or raises,
    [request_id] leaves in [self.__t] the scalar it drew first: the
    blinding factor of an earlier request is gone. *)
Theorem request_id_resets_t (attributes : list Attribute) (data : bytes)
    (s : store) :
  self_t (snd (request_id idp_pk entropy attributes data s))
  = Some (entropy s.(drawn)).
Proof.
  unfold request_id, create_commitment. run_step.
  destruct (commitment_loop idp_pk (hash_hidden_attributes attributes) attributes
              0 0 (g1_mul idp_pk.(g1) (entropy (drawn s)))) as [C|err];
    [|reflexivity].
  pose proof (create_zkp_self_t attributes (hash_hidden_attributes attributes)
                C data (Store (Some (entropy (drawn s))) (S (drawn s)))) as Hself.
  destruct (create_zkp idp_pk entropy attributes
              (hash_hidden_attributes attributes) C data
              (Store (Some (entropy (drawn s))) (S (drawn s))))
    as [[[[V c] r]|err] s1]; exact Hself.
Qed.

(** The loop over the hashed attributes runs out of random scalars when
    there are more hashes than scalars after the first. *)
Lemma zkp_r_loop_short (c : Z) (randomness : list Z) (hashed : list Z) :
  forall (rs : list Z) (i : nat) (r : list Z),
    skipn (S i) randomness = rs ->
    (length rs < length hashed)%nat ->
    zkp_r_loop hashed i randomness c r = Raise IndexError.
Proof.
  induction hashed as [|h hashed IH]; intros rs i r Hskip Hlen;
    [simpl in Hlen; lia|].
  cbn [zkp_r_loop]. rewrite Nat.add_1_r. destruct rs as [|x rs].
  - apply skipn_all_iff in Hskip. rewrite index_out by exact Hskip. reflexivity.
  - destruct (skipn_head randomness (S i) Hskip) as [Hidx Htl].
    rewrite Hidx. cbn [rbind]. apply (IH rs); [assumption | simpl in Hlen; lia].
Qed.

(** X8: [create_zkp] does not check the hashes it is given against the
    attributes.  With the hidden attributes first: fewer hashes than hidden
    attributes give a shorter [r], of [1 + len(hashed_attributes)] entries;
    more hashes raise [IndexError]. *)
Theorem create_zkp_hashed_length (L : GroupLaws E) (attributes : list Attribute)
    (hashed : list Z) (C : G1) (data : bytes) (s : store) (t : Z) :
  hidden_prefix attributes = true ->
  (length attributes <= length idp_pk.(Yg1))%nat ->
  s.(self_t) = Some t ->
  let random_0 := entropy s.(drawn) in
  let randoms := map entropy (seq (S s.(drawn)) (count_hidden attributes)) in
  let V := proof_commitment_of idp_pk random_0 randoms attributes in
  let c := to_challenge [g1_export C; g1_export V; data] in
  let r := responses_of (random_0 :: randoms) (t :: hashed) c in
  fst (create_zkp idp_pk entropy attributes hashed C data s)
  = (if (length hashed <=? count_hidden attributes)%nat
     then Ok (V, c, r) else Raise IndexError)
  /\ ((length hashed <= count_hidden attributes)%nat ->
      length r = (1 + length hashed)%nat).
Proof.
  intros Hpre Hkeys Ht random_0 randoms V c r. split.
  - unfold create_zkp. run_step. cbn [index nth_error].
    rewrite (@zkp_V_loop_prefix E idp_pk entropy L)
      by (simpl; try lia; assumption).
    cbn [self_t drawn app index nth_error]. rewrite Ht. cbn [bn_mul_dyn].
    fold random_0. fold randoms.
    destruct (Nat.leb_spec (length hashed) (count_hidden attributes)) as [Hle | Hgt].
    + rewrite (zkp_r_loop_responses _ (random_0 :: randoms) hashed
                 (rs := randoms) 0);
        [reflexivity | reflexivity
         | unfold randoms; rewrite length_map, length_seq; exact Hle].
    + rewrite (zkp_r_loop_short _ (random_0 :: randoms) hashed (rs := randoms) 0);
        [reflexivity | reflexivity
         | unfold randoms; rewrite length_map, length_seq; exact Hgt].
  - intros Hle. unfold r, responses_of.
    rewrite length_map, length_combine. cbn [length].
    unfold randoms. rewrite length_map, length_seq. lia.
Qed.

(** X7: given the hashes of its attributes, a generator for each of them
    and [t] in the store, [create_zkp] returns exactly when the hidden
    attributes come first; it then has drawn [1 + |hidden|] scalars and
    [V = g1 * random_0 + sum over the hidden positions of
    Yg1[i] * random_k].  In every other order it raises [IndexError]. *)
Theorem create_zkp_needs_hidden_first (L : GroupLaws E)
    (attributes : list Attribute) (C : G1) (data : bytes) (s : store) (t : Z) :
  (length attributes <= length idp_pk.(Yg1))%nat ->
  s.(self_t) = Some t ->
  let run := create_zkp idp_pk entropy attributes
               (hash_hidden_attributes attributes) C data s in
  let random_0 := entropy s.(drawn) in
  let randoms := map entropy (seq (S s.(drawn)) (count_hidden attributes)) in
  let V := proof_commitment_of idp_pk random_0 randoms attributes in
  let c := to_challenge [g1_export C; g1_export V; data] in
  (hidden_prefix attributes = true ->
   run = (Ok (V, c, responses_of (random_0 :: randoms)
                      (t :: hash_hidden_attributes attributes) c),
          Store (Some t) (s.(drawn) + 1 + count_hidden attributes)))
  /\ (hidden_prefix attributes = false -> fst run = Raise IndexError)
  /\ ((exists out, fst run = Ok out) <-> hidden_prefix attributes = true).
Proof.
  intros Hkeys Ht run random_0 randoms V c.
  assert (Hgood : hidden_prefix attributes = true ->
            run = (Ok (V, c, responses_of (random_0 :: randoms)
                               (t :: hash_hidden_attributes attributes) c),
                   Store (Some t) (s.(drawn) + 1 + count_hidden attributes))).
  { intros Hpre. unfold run.
    rewrite (@create_zkp_prefix E idp_pk entropy L attributes C data s t
               Hpre Hkeys Ht).
    do 2 f_equal. lia. }
  assert (Hbad : hidden_prefix attributes = false -> fst run = Raise IndexError).
  { intros Hpre. unfold run.
    destruct (@create_zkp_raises E idp_pk entropy attributes
                (hash_hidden_attributes attributes) C data s Hpre) as [s' ->].
    reflexivity. }
  split; [exact Hgood|]. split; [exact Hbad|]. split.
  - intros [out Hout]. destruct (hidden_prefix attributes); [reflexivity|].
    rewrite Hbad in Hout by reflexivity. discriminate.
  - intros Hpre. rewrite (Hgood Hpre). cbn [fst]. eauto.
Qed.

(** [request_id] on the vectors it accepts. *)
Lemma request_id_run (L : GroupLaws E) (attributes : list Attribute)
    (data : bytes) (s : store) :
  hidden_prefix attributes = true ->
  (length attributes <= length idp_pk.(Yg1))%nat ->
  let t := entropy s.(drawn) in
  let random_0 := entropy (S s.(drawn)) in
  let randoms := map entropy (seq (S (S s.(drawn))) (count_hidden attributes)) in
  let C := commitment_of idp_pk t attributes in
  let V := proof_commitment_of idp_pk random_0 randoms attributes in
  let c := to_challenge [g1_export C; g1_export V; data] in
  request_id idp_pk entropy attributes data s
  = (Ok {| req_C := C;
           req_c := c;
           req_r := responses_of (random_0 :: randoms)
                      (t :: hash_hidden_attributes attributes) c;
           req_attributes :=
             map (fun attr : Attribute =>
                    if snd attr then Placeholder else Plain (fst attr))
                 attributes |},
     Store (Some t) (S (S s.(drawn)) + count_hidden attributes)).
Proof.
  intros Hpre Hkeys t random_0 randoms C V c.
  unfold request_id. unfold bind at 1.
  rewrite (@create_commitment_run E idp_pk entropy L attributes s Hkeys).
  fold t. fold C. unfold bind at 1.
  rewrite (@create_zkp_prefix E idp_pk entropy L attributes C data
             (Store (Some t) (S (drawn s))) t Hpre Hkeys eq_refl).
  reflexivity.
Qed.

End Requests.

(** ** What a request carries *)

Section RequestContents.

Context {E : GroupEngine}.
Variable idp_pk : PubKey E.
Variable entropy : nat -> Z.

(** X1: on a vector with the hidden attributes first and a generator for
    every attribute, [request_id] returns a request and has drawn
    [2 + |hidden|] scalars, the first of them kept as [t].  The request
    carries the commitment under [t], [1 + |hidden|] responses, and as many
    attributes as it was given: the placeholder at each hidden position,
    the bytes of the attribute at each plain one. *)
Theorem request_id_returns (L : GroupLaws E) (attributes : list Attribute)
    (data : bytes) (s : store) :
  hidden_prefix attributes = true ->
  (length attributes <= length idp_pk.(Yg1))%nat ->
  exists request : Request E,
    request_id idp_pk entropy attributes data s
    = (Ok request,
       Store (Some (entropy s.(drawn))) (s.(drawn) + 2 + count_hidden attributes))
    /\ request.(req_C) = commitment_of idp_pk (entropy s.(drawn)) attributes
    /\ length request.(req_r) = (1 + count_hidden attributes)%nat
    /\ length request.(req_attributes) = length attributes
    /\ (forall (i : nat) (v : bytes),
          nth_error attributes i = Some (v, true) ->
          nth_error request.(req_attributes) i = Some Placeholder)
    /\ (forall (i : nat) (v : bytes),
          nth_error attributes i = Some (v, false) ->
          nth_error request.(req_attributes) i = Some (Plain v)).
Proof.
  intros Hpre Hkeys.
  pose proof (@request_id_run E idp_pk entropy L attributes data s Hpre Hkeys)
    as Hrun.
  cbv zeta in Hrun. eexists. split; [|split; [|split; [|split; [|split]]]].
  - rewrite Hrun. do 2 f_equal. lia.
  - reflexivity.
  - cbn [req_r]. rewrite responses_of_length; cbn [length];
      rewrite ?length_map, ?length_seq, hash_hidden_attributes_length; lia.
  - cbn [req_attributes]. apply length_map.
  - intros i v Hi. cbn [req_attributes].
    rewrite nth_error_map, Hi. reflexivity.
  - intros i v Hi. cbn [req_attributes].
    rewrite nth_error_map, Hi. reflexivity.
Qed.

(** The hashes folded back into the responses give the random scalars
    back. *)
Lemma responses_recombine (L : GroupLaws E) (M : ModuleLaws E) (c : Z)
    (attributes : list Attribute) :
  forall (i : nat) (randoms : list Z),
    length randoms = count_hidden attributes ->
    g1_add
      (g1_sum (map (g1_random_term idp_pk)
                 (combine (hidden_slots i attributes)
                    (responses_of randoms (hash_hidden_attributes attributes) c))))
      (g1_mul (g1_sum (map (g1_hash_term idp_pk) (hidden_slots i attributes))) c)
    = g1_sum (map (g1_random_term idp_pk)
                (combine (hidden_slots i attributes) randoms)).
Proof.
  induction attributes as [|[v h] rest IH]; intros i randoms Hlen.
  - cbn. rewrite (g1_zero_mul L M). apply g1_add_zero.
  - rewrite hidden_slots_cons, hash_hidden_attributes_cons.
    rewrite count_hidden_cons in Hlen. cbn [snd fst] in *. destruct h.
    + destruct randoms as [|x randoms]; [discriminate|].
      cbn [length] in Hlen. injection Hlen as Hlen.
      cbn [responses_of combine map fst snd].
      fold (responses_of randoms (hash_hidden_attributes rest) c).
      rewrite !g1_sum_cons.
      unfold g1_random_term at 1 3. unfold g1_hash_term at 1. cbn [fst snd].
      rewrite g1_mul_add, g1_mul_mul, (g1_add_swap4 L).
      rewrite <- g1_mul_plus, (IH (S i) randoms Hlen).
      do 2 f_equal. lia.
    + now apply IH.
Qed.

(** X3: the proof in a request is one that its verifier accepts: from
    [C], [c] and [r] alone the verifier recomputes
    [g1 * r_0 + sum of Yg1[i] * r_k + C * c], and hashing it with [C] and
    the data gives the challenge [c] of the request back. *)
Theorem request_proof_verifies (L : GroupLaws E) (M : ModuleLaws E)
    (attributes : list Attribute) (data : bytes) (s : store) :
  hidden_prefix attributes = true ->
  (length attributes <= length idp_pk.(Yg1))%nat ->
  exists (request : Request E) (s' : store),
    request_id idp_pk entropy attributes data s = (Ok request, s')
    /\ to_challenge
         [g1_export request.(req_C);
          g1_export (recomputed_V idp_pk request.(req_C) request.(req_c)
                       request.(req_r) attributes);
          data]
       = request.(req_c).
Proof.
  intros Hpre Hkeys.
  pose proof (@request_id_run E idp_pk entropy L attributes data s Hpre Hkeys)
    as Hrun.
  cbv zeta in Hrun. eexists _, _. split; [exact Hrun|].
  cbn [req_C req_c req_r].
  set (t := entropy (drawn s)).
  set (random_0 := entropy (S (drawn s))).
  set (randoms := map entropy (seq (S (S (drawn s))) (count_hidden attributes))).
  set (V := proof_commitment_of idp_pk random_0 randoms attributes).
  set (c := to_challenge [g1_export (commitment_of idp_pk t attributes);
                          g1_export V; data]).
  assert (HV : recomputed_V idp_pk (commitment_of idp_pk t attributes) c
                 (responses_of (random_0 :: randoms)
                    (t :: hash_hidden_attributes attributes) c) attributes
               = V).
  { unfold recomputed_V, proof_commitment_of, commitment_of, V.
    cbn [responses_of combine map fst snd nth tl].
    fold (responses_of randoms (hash_hidden_attributes attributes) c).
    rewrite g1_mul_add, g1_mul_mul, (g1_add_swap4 L).
    rewrite <- g1_mul_plus.
    rewrite (responses_recombine L M c attributes 0 randoms)
      by (unfold randoms; now rewrite length_map, length_seq).
    unfold proof_commitment_of. do 2 f_equal. lia. }
  rewrite HV. reflexivity.
Qed.

(** X10: [__hash_hidden_attributes] returns one scalar for each hidden
    attribute, in their order, and nothing for the plain ones: the
    big-endian integer of the SHA-256 digest, below [2^256].  The hashes of
    a concatenation are the hashes of its parts, concatenated. *)
Theorem hash_hidden_attributes_spec (attributes more : list Attribute) :
  hash_hidden_attributes attributes
  = map (fun a : Attribute => from_binary (sha256 (fst a)))
        (filter (fun a : Attribute => snd a) attributes)
  /\ length (hash_hidden_attributes attributes) = count_hidden attributes
  /\ Forall (fun h : Z => 0 <= h < 2 ^ 256) (hash_hidden_attributes attributes)
  /\ hash_hidden_attributes (attributes ++ more)
     = hash_hidden_attributes attributes ++ hash_hidden_attributes more.
Proof.
  split; [apply hash_hidden_attributes_filter|].
  split; [apply hash_hidden_attributes_length|]. split.
  - rewrite hash_hidden_attributes_filter. apply Forall_forall.
    intros h Hin. apply in_map_iff in Hin as [a [<- _]].
    apply attribute_hash_range.
  - rewrite !hash_hidden_attributes_filter, filter_app. apply map_app.
Qed.

End RequestContents.

(** ** Sessions *)

Section Sessions.

Context {E : GroupEngine}.
Variables (gen1 : G1) (gen2 : G2) (x : Z) (ys : list Z).
Variable entropy : nat -> Z.

Let pk : PubKey E := keygen gen1 gen2 x ys.

(** X9: with the hidden attributes first (none, some or all of them
    hidden) and a key pair of the scheme with a generator for every
    attribute, a whole session ends with [verify] answering true: the
    request, the signature of a faithful issuer, the unblinding with the
    [t] of that request.  It draws [2 + |hidden|] scalars and leaves [t]
    in the store. *)
Theorem session_verifies_hidden_first (L : GroupLaws E) (u : Z)
    (attributes : list Attribute) (data : bytes) (s : store) :
  hidden_prefix attributes = true ->
  (length attributes <= length ys)%nat ->
  round_trip pk entropy x u attributes data s
  = (Ok true,
     Store (Some (entropy s.(drawn))) (s.(drawn) + 2 + count_hidden attributes)).
Proof.
  intros Hpre Hlen.
  assert (Hkeys : (length attributes <= length pk.(Yg1))%nat)
    by (cbn [pk keygen Yg1]; rewrite length_map; exact Hlen).
  assert (Hkeys2 : (length attributes <= length pk.(Yg2))%nat)
    by (cbn [pk keygen Yg2]; rewrite length_map; exact Hlen).
  set (t := entropy (drawn s)).
  unfold round_trip. unfold bind at 1.
  rewrite (@request_id_run E pk entropy L attributes data s Hpre Hkeys).
  fold t. unfold bind at 1. unfold lift at 1.
  unfold issuer_sign. cbn [req_attributes req_C].
  unfold commitment_of. cbn [pk keygen g1]. fold pk.
  rewrite g1_add_assoc, <- g1_mul_plus.
  rewrite (@hidden_terms_exponent E gen1 gen2 x ys L) by (simpl; lia).
  rewrite (@issuer_plain_terms_exponent E gen1 gen2 x ys L) by (simpl; lia).
  cbn [rbind]. unfold bind at 1.
  unfold unbind_sig. run_step. cbn [g1_mul_dyn].
  rewrite (@verify_run E pk L _ _ attributes Hkeys2).
  f_equal; [|f_equal; lia].
  f_equal. apply gt_eqb_eq.
  unfold aggregated_key. cbn [pk keygen X g2]. fold pk.
  rewrite (@all_terms_exponent E gen1 gen2 x ys L) by (simpl; lia).
  rewrite exponent_sum_split.
  rewrite <- e_bilinear. f_equal.
  rewrite !g1_mul_mul.
  set (Sh := exponent_sum ys (fun a => snd a) 0 attributes).
  set (Sp := exponent_sum ys (fun a => negb (snd a)) 0 attributes).
  replace ((x + t + Sh + Sp) * u) with (u * (x + (Sh + Sp)) + u * t) by lia.
  rewrite g1_mul_plus. now rewrite (@g1_add_sub E L).
Qed.

End Sessions.

(** ** Unblinding undoes a blinding *)

Section Unblinding.

Context {E : GroupEngine}.

(** X11: [unbind_sig] takes off exactly the blinding by [t]: given
    [(sig1, sig2 + sig1 * t)] it returns [(sig1, sig2)]. *)
Theorem unbind_sig_undoes_blinding (L : GroupLaws E) (sig1 sig2 : G1) (t : Z)
    (s : store) :
  s.(self_t) = Some t ->
  unbind_sig (sig1, g1_add sig2 (g1_mul sig1 t)) s = (Ok (sig1, sig2), s).
Proof.
  intros Ht. unfold unbind_sig. run_step. rewrite Ht. cbn [g1_mul_dyn].
  now rewrite (g1_add_sub L).
Qed.

End Unblinding.

(** ** The same, on sessions *)

Module MoreRuns.

Import Zq Session.

Lemma verify_accepts_identity_pair_witness :
  (length alice_late <= length pk.(Yg2))%nat
  /\ verify pk (g1_zero, g1_zero) alice_late = Ok true.
Proof.
  split; [vm_compute; lia|].
  apply (@verify_accepts_identity_pair engine pk ZqLaws.laws
           ZqModuleLaws.module_laws alice_late).
  vm_compute; lia.
Defined.

Lemma create_commitment_keys_witness :
  hidden_covered (keygen (E := engine) (of_Z 5) (of_Z 7) 1234567 [11]) alice_hidden = true
  /\ hidden_covered (keygen (E := engine) (of_Z 5) (of_Z 7) 1234567 [11]) alice_late = false
  /\ fst (create_commitment (keygen (E := engine) (of_Z 5) (of_Z 7) 1234567 [11]) entropy
            (hash_hidden_attributes alice_late) alice_late (init 0))
     = Raise IndexError.
Proof.
  split; [reflexivity|]. split; [reflexivity|].
  rewrite (@create_commitment_keys engine
             (keygen (E := engine) (of_Z 5) (of_Z 7) 1234567 [11]) entropy ZqLaws.laws
             alice_late (init 0)).
  reflexivity.
Defined.

Lemma create_zkp_hashed_length_witness :
  hidden_prefix alice_hidden = true
  /\ (length alice_hidden <= length pk.(Yg1))%nat
  /\ (exists out, fst (create_zkp pk entropy alice_hidden [] (g1_mul pk.(g1) 1000003)
                         (b_ "now") (Store (Some 1000003) 1)) = Ok out
                  /\ length (snd out) = 1%nat)
  /\ fst (create_zkp pk entropy alice_hidden [5; 6] (g1_mul pk.(g1) 1000003)
            (b_ "now") (Store (Some 1000003) 1)) = Raise IndexError.
Proof.
  split; [reflexivity|]. split; [vm_compute; lia|]. split.
  - destruct (@create_zkp_hashed_length engine pk entropy ZqLaws.laws alice_hidden
                [] (g1_mul pk.(g1) 1000003) (b_ "now") (Store (Some 1000003) 1)
                1000003 eq_refl ltac:(vm_compute; lia) eq_refl) as [Hrun Hlen].
    eexists. split; [exact Hrun|]. reflexivity.
  - destruct (@create_zkp_hashed_length engine pk entropy ZqLaws.laws alice_hidden
                [5; 6] (g1_mul pk.(g1) 1000003) (b_ "now") (Store (Some 1000003) 1)
                1000003 eq_refl ltac:(vm_compute; lia) eq_refl) as [Hrun _].
    exact Hrun.
Defined.

Lemma create_zkp_needs_hidden_first_witness :
  (length alice_late <= length pk.(Yg1))%nat
  /\ fst (create_zkp pk entropy alice_late (hash_hidden_attributes alice_late)
            (g1_mul pk.(g1) 1000003) (b_ "now") (Store (Some 1000003) 1))
     = Raise IndexError.
Proof.
  split; [vm_compute; lia|].
  destruct (@create_zkp_needs_hidden_first engine pk entropy ZqLaws.laws alice_late
              (g1_mul pk.(g1) 1000003) (b_ "now") (Store (Some 1000003) 1)
              1000003 ltac:(vm_compute; lia) eq_refl) as (_ & Hbad & _).
  apply Hbad. reflexivity.
Defined.

Lemma request_id_returns_witness :
  hidden_prefix alice_hidden = true
  /\ (length alice_hidden <= length pk.(Yg1))%nat
  /\ exists request : Request engine,
       request_id pk entropy alice_hidden (b_ "now") (init 0)
       = (Ok request, Store (Some 1000003) 3)
       /\ request.(req_attributes) = [Placeholder; Plain (b_ "2024")].
Proof.
  split; [reflexivity|]. split; [vm_compute; lia|].
  destruct (@request_id_returns engine pk entropy ZqLaws.laws alice_hidden
              (b_ "now") (init 0) eq_refl ltac:(vm_compute; lia))
    as (request & Hrun & _ & _ & Hlen & Hhid & Hplain).
  exists request. split; [exact Hrun|].
  pose proof (Hhid 0%nat (b_ "alice") eq_refl) as H0.
  pose proof (Hplain 1%nat (b_ "2024") eq_refl) as H1.
  destruct (req_attributes request) as [|a0 [|a1 [|a2 rest]]];
    try discriminate.
  cbn in H0, H1. injection H0 as ->. injection H1 as ->. reflexivity.
Defined.

Lemma request_proof_verifies_witness :
  hidden_prefix alice_hidden = true
  /\ (length alice_hidden <= length pk.(Yg1))%nat
  /\ exists (request : Request engine) (s' : store),
       request_id pk entropy alice_hidden (b_ "now") (init 0) = (Ok request, s')
       /\ to_challenge
            [g1_export request.(req_C);
             g1_export (recomputed_V pk request.(req_C) request.(req_c)
                          request.(req_r) alice_hidden);
             b_ "now"]
          = request.(req_c).
Proof.
  split; [reflexivity|]. split; [vm_compute; lia|].
  apply (@request_proof_verifies engine pk entropy ZqLaws.laws
           ZqModuleLaws.module_laws alice_hidden (b_ "now") (init 0)).
  - reflexivity.
  - vm_compute; lia.
Defined.

Lemma session_verifies_hidden_first_witness :
  hidden_prefix alice_hidden = true
  /\ (length alice_hidden <= length [11; 13; 17])%nat
  /\ round_trip (keygen (E := engine) (of_Z 5) (of_Z 7) 1234567 [11; 13; 17]) entropy
       1234567 99 alice_hidden (b_ "now") (init 0)
     = (Ok true, Store (Some (entropy 0)) 3).
Proof.
  split; [reflexivity|]. split; [simpl; lia|].
  apply (@session_verifies_hidden_first engine (of_Z 5) (of_Z 7) 1234567
           [11; 13; 17] entropy ZqLaws.laws 99 alice_hidden (b_ "now") (init 0)).
  - reflexivity.
  - simpl; lia.
Defined.

Lemma unbind_sig_undoes_blinding_witness :
  unbind_sig (of_Z 3, g1_add (of_Z 4) (g1_mul (of_Z 3) 1000003))
    (Store (Some 1000003) 3)
  = (Ok (of_Z 3, of_Z 4), Store (Some 1000003) 3).
Proof.
  apply (@unbind_sig_undoes_blinding engine ZqLaws.laws (of_Z 3) (of_Z 4)
           1000003 (Store (Some 1000003) 3)).
  reflexivity.
Defined.

End MoreRuns.
